(** * colorcal: CMYK ink coverage and print cost

    A shallow embedding of [colorcal.py]: the coverage estimator
    [calculate_cmyk_coverage], the cost calculator [calculate_print_cost]
    and the part of the script that runs them on an uploaded file.

    Numbers.  The script computes with IEEE floats (float32 in the
    estimator, float64 in the calculator).  The first part idealises them
    as exact rationals, extended with the one special value the script
    can produce, [NaN] (NumPy's mean of an empty selection); it serves
    the properties that do not depend on rounding error: the formulas,
    the ranges, the order of the amounts, and where nan arises and how
    far it travels.  The second part, from [IEEE] on, has the floats
    themselves, binary32 and binary64 with [round], [repr] and [float] as
    NumPy 2 and Python define them; it serves the properties about the
    values and texts that the two functions exchange and the script
    shows. *)

From Stdlib Require Import ZArith QArith Qround Qabs Lia Lqa List String Ascii Bool.
From Stdlib Require Import Strings.Byte Floats.SpecFloat.
Import ListNotations.

Local Open Scope Z_scope.

(** ** Numbers *)

Module Num.

Inductive num : Type :=
| Fin (q : Q)
| NaN.

(** Equality of idealised floats: rationals up to [Qeq]. *)
Definition eq (a b : num) : Prop :=
  match a, b with
  | Fin x, Fin y => (x == y)%Q
  | NaN, NaN => True
  | _, _ => False
  end.

(** The order of finite values; a comparison with nan is false. *)
Definition le (a b : num) : Prop :=
  match a, b with
  | Fin x, Fin y => (x <= y)%Q
  | _, _ => False
  end.

Definition lift2 (f : Q -> Q -> Q) (a b : num) : num :=
  match a, b with
  | Fin x, Fin y => Fin (f x y)
  | _, _ => NaN
  end.

Definition add := lift2 Qplus.
Definition mul := lift2 Qmult.
(** The script divides a possibly-nan value only by the literal 100. *)
Definition div := lift2 Qdiv.

(** Round to the nearest integer, ties to even. *)
Definition rint (q : Q) : Z :=
  let n := Qfloor q in
  match (q - inject_Z n ?= 1 # 2)%Q with
  | Lt => n
  | Gt => n + 1
  | Eq => if Z.even n then n else n + 1
  end.

(** [round(x, 2)] on a finite value, as a count of hundredths. *)
Definition hundredths (q : Q) : Z := rint (q * 100).

Definition round2Q (q : Q) : Q := hundredths q # 100.

(** [round(x, 2)]: nan stays nan. *)
Definition round2 (x : num) : num :=
  match x with
  | Fin q => Fin (round2Q q)
  | NaN => NaN
  end.

End Num.

Import Num.

Declare Scope num_scope.
Delimit Scope num_scope with num.
Infix "+" := Num.add : num_scope.
Infix "*" := Num.mul : num_scope.
Infix "/" := Num.div : num_scope.
Infix "==" := Num.eq : num_scope.
Infix "<=" := Num.le : num_scope.

(** ** Text: [str] of a float, [float] of a string, [strip] *)

Module Text.

Local Open Scope string_scope.

Definition digit_char (d : Z) : ascii := ascii_of_nat (48 + Z.to_nat d).

Definition is_digit (c : ascii) : bool :=
  let n := nat_of_ascii c in (48 <=? n)%nat && (n <=? 57)%nat.

Definition digit_val (c : ascii) : Z := Z.of_nat (nat_of_ascii c - 48).

(** The last [k] decimal digits of [n], most significant first. *)
Fixpoint digits_fixed (k : nat) (n : Z) : string :=
  match k with
  | O => ""
  | S k' => digits_fixed k' (n / 10) ++ String (digit_char (n mod 10)) ""
  end.

(** Number of decimal digits of [n >= 0] (1 for 0). *)
Fixpoint ndigits (fuel : nat) (n : Z) : nat :=
  match fuel with
  | O => 1%nat
  | S f => if (n <? 10)%Z then 1%nat else S (ndigits f (n / 10))
  end.

Definition str_int (n : Z) : string :=
  digits_fixed (ndigits (Z.to_nat (Z.log2 n)) n) n.

(** [m / 10^k] written with [k] fractional digits. *)
Definition str_decimal (m : Z) (k : nat) : string :=
  let p := 10 ^ Z.of_nat k in
  str_int (m / p) ++ "." ++ digits_fixed k (m mod p).

Definition is_integral (q : Q) : bool := Qeq_bool (inject_Z (Qfloor q)) q.

(** The least number of fractional digits, at least [k] and at most
    [k + fuel], with which [q] is written exactly. *)
Fixpoint places (fuel k : nat) (q : Q) : nat :=
  match fuel with
  | O => k
  | S f =>
      if is_integral (q * inject_Z (10 ^ Z.of_nat k)) then k
      else places f (S k) q
  end.

(** [str(x)] for a float [x] in positional notation: the shortest decimal
    that reads back as [x], with at least one fractional digit
    ([2.8], [100.0], [0.39]).  Python switches to exponent notation below
    1e-4 and from 1e16 on; those magnitudes are printed positionally here.
    A negative value that rounds to zero prints as [0.0], not [-0.0]. *)
Definition str_Q (q : Q) : string :=
  let a := Qabs q in
  let k := places 16 1 a in
  let m := Qfloor (a * inject_Z (10 ^ Z.of_nat k)) in
  (if Qlt_le_dec q 0 then (if (m =? 0)%Z then "" else "-") else "")
    ++ str_decimal m k.

Definition str (x : num) : string :=
  match x with
  | Fin q => str_Q q
  | NaN => "nan"
  end.

(** Python exceptions the script can meet. *)
Inductive exn : Type := KeyError | ValueError.

Inductive result (A : Type) : Type :=
| Ok (a : A)
| Raise (e : exn).
Arguments Ok {A} a.
Arguments Raise {A} e.

Definition bind {A B} (r : result A) (k : A -> result B) : result B :=
  match r with
  | Ok a => k a
  | Raise e => Raise e
  end.

(** Value of a string of decimal digits, [None] on any other character. *)
Fixpoint value_digits (acc : Z) (s : string) : option Z :=
  match s with
  | "" => Some acc
  | String c s' =>
      if is_digit c then value_digits (10 * acc + digit_val c) s' else None
  end.

(** Split at the first ['.']. *)
Fixpoint split_dot (s : string) : string * option string :=
  match s with
  | "" => ("", None)
  | String c s' =>
      if Ascii.eqb c "." then ("", Some s')
      else let (a, b) := split_dot s' in (String c a, b)
  end.

(** An unsigned decimal literal: digits, optionally a point and digits,
    with a digit on at least one side of the point. *)
Definition unsigned_literal (s : string) : option Q :=
  match split_dot s with
  | (ip, None) =>
      match ip, value_digits 0 ip with
      | String _ _, Some n => Some (inject_Z n)
      | _, _ => None
      end
  | (ip, Some fp) =>
      match value_digits 0 ip, value_digits 0 fp with
      | Some n, Some f =>
          if ((length ip =? 0) && (length fp =? 0))%nat then None
          else
            let p := 10 ^ Z.of_nat (length fp) in
            Some (inject_Z (n * p + f) / inject_Z p)%Q
      | _, _ => None
      end
  end.

(** [float(s)] on the spellings that [str] of a float produces: a decimal
    literal with an optional sign, and [nan].  Python's [float] also reads
    exponents, [inf], underscores and surrounding blanks; the script never
    passes it one of those, and they count as malformed here. *)
Definition float_of_string (s : string) : result num :=
  if String.eqb s "nan" then Ok NaN
  else
    match s with
    | String "-" s' =>
        match unsigned_literal s' with
        | Some q => Ok (Fin (- q))
        | None => Raise ValueError
        end
    | _ =>
        match unsigned_literal s with
        | Some q => Ok (Fin q)
        | None => Raise ValueError
        end
    end.

(** [s.lstrip(c)]. *)
Fixpoint lstrip (c : ascii) (s : string) : string :=
  match s with
  | "" => ""
  | String a s' => if Ascii.eqb a c then lstrip c s' else s
  end.

(** [s.rstrip(c)]. *)
Fixpoint rstrip (c : ascii) (s : string) : string :=
  match s with
  | "" => ""
  | String a s' =>
      match rstrip c s' with
      | "" => if Ascii.eqb a c then "" else String a ""
      | t => String a t
      end
  end.

(** [s.strip(c)] for a one-character set. *)
Definition strip (c : ascii) (s : string) : string := rstrip c (lstrip c s).

End Text.

Import Text.

Notation "x <- c ;; k" := (Text.bind c (fun x => k))
  (at level 61, c at next level, right associativity).

(** ** Python dicts: insertion-ordered association lists *)

Module Dict.

Definition dict (V : Type) : Type := list (string * V).

(** [d[k]]. *)
Fixpoint getitem {V} (d : dict V) (k : string) : result V :=
  match d with
  | [] => Raise KeyError
  | (k', v) :: d' => if String.eqb k' k then Ok v else getitem d' k
  end.

(** [d[k] = v]: replaces in place, or appends a new key. *)
Fixpoint setitem {V} (d : dict V) (k : string) (v : V) : dict V :=
  match d with
  | [] => [(k, v)]
  | (k', v') :: d' =>
      if String.eqb k' k then (k', v) :: d' else (k', v') :: setitem d' k v
  end.

(** Iteration over a dict yields its keys. *)
Definition keys {V} (d : dict V) : list string := map fst d.

End Dict.

Import Dict.

(** ** The estimator: [calculate_cmyk_coverage] *)

Local Open Scope Q_scope.
Local Open Scope string_scope.

(** A pixel as [cv2.imread] stores it: three bytes in B, G, R order. *)
Definition pixel : Type := byte * byte * byte.

(** The decoded image: rows of pixels. *)
Definition image : Type := list (list pixel).

Definition u8 (b : byte) : Q := inject_Z (Z.of_N (Byte.to_N b)).

(** One element of [bgr = image.astype(np.float32) / 255]. *)
Definition normalize (p : pixel) : Q * Q * Q :=
  let '(b, g, r) := p in (u8 b / 255, u8 g / 255, u8 r / 255).

(** [bgr[..., 0]], [bgr[..., 1]], [bgr[..., 2]] at one pixel. *)
Definition ch0 (v : Q * Q * Q) : Q := fst (fst v).
Definition ch1 (v : Q * Q * Q) : Q := snd (fst v).
Definition ch2 (v : Q * Q * Q) : Q := snd v.

Definition Qmax (a b : Q) : Q := if Qlt_le_dec a b then b else a.

(** [np.max(bgr, axis=2)] at one pixel. *)
Definition np_max (v : Q * Q * Q) : Q := Qmax (Qmax (ch0 v) (ch1 v)) (ch2 v).

Definition eps : Q := 1 # 10000000000.

(** The four planes, element by element (lines 56-59). *)
Definition K_px (v : Q * Q * Q) : Q := 1 - np_max v.
Definition C_px (v : Q * Q * Q) : Q := (1 - ch2 v - K_px v) / (1 - K_px v + eps).
Definition M_px (v : Q * Q * Q) : Q := (1 - ch1 v - K_px v) / (1 - K_px v + eps).
Definition Y_px (v : Q * Q * Q) : Q := (1 - ch0 v - K_px v) / (1 - K_px v + eps).

(** A plane computed from [bgr] by an element-wise expression. *)
Definition plane (f : Q * Q * Q -> Q) (img : image) : list (list Q) :=
  map (map (fun p => f (normalize p))) img.

Definition Qsum (l : list Q) : Q := fold_left Qplus l 0.

(** [np.mean] of a flat array: nan on an empty one. *)
Definition np_mean (l : list Q) : num :=
  match l with
  | [] => NaN
  | _ => Fin (Qsum l / inject_Z (Z.of_nat (List.length l)))
  end.

Definition positive (q : Q) : bool := if Qlt_le_dec 0 q then true else false.

(** [channel[channel > 0]]: the selected elements, in row-major order. *)
Definition select_positive (channel : list (list Q)) : list Q :=
  filter positive (List.concat channel).

(** [np.mean(channel[channel > 0]) * 100], before [round]. *)
Definition ink_mean_percent (channel : list (list Q)) : num :=
  (np_mean (select_positive channel) * Fin 100)%num.

(** The local function [ink_percentage] (lines 62-63). *)
Definition ink_percentage (channel : list (list Q)) : num :=
  round2 (ink_mean_percent channel).

(** [np.mean(K) * 100], before [round] (line 69). *)
Definition black_mean_percent (K : list (list Q)) : num :=
  (np_mean (List.concat K) * Fin 100)%num.

Definition percent (x : num) : string := str x ++ "%".

(** The dict built from a decoded image (lines 55-70). *)
Definition cmyk_coverage_of (img : image) : dict string :=
  let K := plane K_px img in
  let C := plane C_px img in
  let M := plane M_px img in
  let Y := plane Y_px img in
  [ ("Cyan", percent (ink_percentage C));
    ("Magenta", percent (ink_percentage M));
    ("Yellow", percent (ink_percentage Y));
    ("Black (K)", percent (round2 (black_mean_percent K))) ].

(** The files on disk: path and contents. *)
Definition files : Type := list (string * list byte).

Fixpoint read_file (fs : files) (path : string) : option (list byte) :=
  match fs with
  | [] => None
  | (p, b) :: fs' => if String.eqb p path then Some b else read_file fs' path
  end.

Section Decoder.

(** OpenCV's decoder of file contents: [None] when the bytes are not an
    image it can read. *)
Variable imdecode : list byte -> option image.

(** [cv2.imread]: [None] for a missing or undecodable file. *)
Definition imread (fs : files) (path : string) : option image :=
  match read_file fs path with
  | Some bytes => imdecode bytes
  | None => None
  end.

Definition calculate_cmyk_coverage (fs : files) (image_path : string)
  : option (dict string) :=
  match imread fs image_path with
  | None => None
  | Some img => Some (cmyk_coverage_of img)
  end.

End Decoder.

(** ** The calculator: [calculate_print_cost] *)

(** The module-level names that [calculate_print_cost] reads. *)
Record globals : Type := {
  ink_prices : dict Q;
  paper_cost : Q;
  markup : Q
}.

(** The amounts before output rounding: [total_ink_cost], [total_cost]
    and [final_price]. *)
Record amounts : Type := {
  total_ink_cost : num;
  total_cost : num;
  final_price : num
}.

(** [float(ink_coverage[color].strip('%'))]: the coverage the calculator
    computes with. *)
Definition consumed_coverage (ink_coverage : dict string) (color : string)
  : result num :=
  cov <- getitem ink_coverage color ;;
  float_of_string (strip "%" cov).

(** One term of the generator inside [sum] (line 75). *)
Definition ink_term (g : globals) (print_area : Q) (ink_coverage : dict string)
    (ink_usage_per_m2 : dict Q) (color : string) : result num :=
  x <- consumed_coverage ink_coverage color ;;
  usage <- getitem ink_usage_per_m2 color ;;
  price <- getitem (ink_prices g) color ;;
  Ok ((((x / Fin 100) * Fin print_area) * Fin usage) * Fin price)%num.

(** [sum(f(color) for color in colors)], starting from 0. *)
Fixpoint py_sum (f : string -> result num) (colors : list string) (acc : num)
  : result num :=
  match colors with
  | [] => Ok acc
  | color :: rest => t <- f color ;; py_sum f rest (acc + t)%num
  end.

(** Lines 73-79. *)
Definition cost_amounts (g : globals) (print_width print_height : Q)
    (ink_coverage : dict string) (ink_usage_per_m2 : dict Q) : result amounts :=
  let print_area := (print_width / 1000) * (print_height / 1000) in
  ink <- py_sum (ink_term g print_area ink_coverage ink_usage_per_m2)
           (keys (ink_prices g)) (Fin 0) ;;
  let total := (ink + Fin (paper_cost g))%num in
  let final := (total * Fin (1 + markup g))%num in
  Ok {| total_ink_cost := ink; total_cost := total; final_price := final |}.

(** The currency prefix of every amount, U+20B1 in UTF-8. *)
Definition peso : string :=
  String (ascii_of_nat 226) (String (ascii_of_nat 130) (String (ascii_of_nat 177) "")).

(** Lines 80-85: the returned dict of formatted amounts. *)
Definition format_amounts (g : globals) (a : amounts) : dict string :=
  [ ("Ink Cost", peso ++ str (round2 (total_ink_cost a)));
    ("Paper Cost", peso ++ str (Fin (paper_cost g)));
    ("Total Cost", peso ++ str (round2 (total_cost a)));
    ("Final Price (with Markup)", peso ++ str (round2 (final_price a))) ].

Definition calculate_print_cost (g : globals) (print_width print_height : Q)
    (ink_coverage : dict string) (ink_usage_per_m2 : dict Q)
  : result (dict string) :=
  a <- cost_amounts g print_width print_height ink_coverage ink_usage_per_m2 ;;
  Ok (format_amounts g a).

(** ** The script *)

Record printer : Type := {
  INK_USAGE_PER_M2 : dict Q;
  DEFAULT_INK_PRICES : dict Q
}.

Definition PRINTERS : dict printer :=
  [ ("Epson Workforce C5290",
     {| INK_USAGE_PER_M2 :=
          [("Cyan", 55.29); ("Magenta", 55.29); ("Yellow", 55.29); ("Black (K)", 55.29)];
        DEFAULT_INK_PRICES :=
          [("Cyan", 1.0); ("Magenta", 1.0); ("Yellow", 1.0); ("Black (K)", 1.0)] |});
    ("Xerox VersaLink C405",
     {| INK_USAGE_PER_M2 :=
          [("Cyan", 0.332); ("Magenta", 0.332); ("Yellow", 0.332); ("Black (K)", 0.332)];
        DEFAULT_INK_PRICES :=
          [("Cyan", 331.75); ("Magenta", 331.75); ("Yellow", 331.75); ("Black (K)", 331.75)] |}) ].

Definition DEFAULT_PAPER_COST : Q := 2.8.
Definition DEFAULT_MARKUP : Q := 0.3.

(** The output calls of the upload block. *)
Inductive st_call : Type :=
| st_image (path : string)
| st_subheader (text : string)
| st_write (text : string)
| st_error (text : string).

(** The truth value of [calculate_cmyk_coverage]'s result in
    [if cmyk_coverage:]: false for [None] and for an empty dict. *)
Definition truthy {V : Type} (r : option (dict V)) : bool :=
  match r with
  | Some (_ :: _) => true
  | _ => false
  end.

(** [for k, v in d.items(): st.write(f"**{k}:** {v}")]. *)
Definition write_items (d : dict string) : list st_call :=
  map (fun kv => st_write ("**" ++ fst kv ++ ":** " ++ snd kv)) d.

(** The loop of lines 38-41. *)
Definition read_ink_prices (defaults : dict Q) (input : string -> Q) : dict Q :=
  fold_left (fun d color => setitem d color (input color)) (keys defaults) [].

(** ** The specification's cost formulas

    Written after the specification (section 4.2), over its [InkChannel]
    enumeration, to be compared with [cost_amounts]. *)

Module Spec.

Inductive InkChannel : Type := Cyan | Magenta | Yellow | Black.

Definition channels : list InkChannel := [Cyan; Magenta; Yellow; Black].

Section CostCalculator.

Variable coveragePercent : InkChannel -> num.
Variables widthMm heightMm : Q.
Variables inkUsagePerM2 inkPricePerUnit : InkChannel -> Q.
Variables paperCostPerSheet markupFraction : Q.

Definition printAreaM2 : Q := (widthMm / 1000) * (heightMm / 1000).

Definition channelInkCost (channel : InkChannel) : num :=
  ((coveragePercent channel / Fin 100) * Fin printAreaM2
   * Fin (inkUsagePerM2 channel) * Fin (inkPricePerUnit channel))%num.

Definition totalInkCost : num :=
  (channelInkCost Cyan + channelInkCost Magenta
   + channelInkCost Yellow + channelInkCost Black)%num.

Definition totalCost : num := (totalInkCost + Fin paperCostPerSheet)%num.

Definition finalPrice : num := (totalCost * Fin (1 + markupFraction))%num.

End CostCalculator.

End Spec.

Import Spec.

(** The key of a channel in the script's dicts. *)
Definition channel_name (c : InkChannel) : string :=
  match c with
  | Cyan => "Cyan"
  | Magenta => "Magenta"
  | Yellow => "Yellow"
  | Black => "Black (K)"
  end.

(** The dict with one entry per channel, in the catalogue's key order. *)
Definition dict_of {V : Type} (f : InkChannel -> V) : dict V :=
  map (fun c => (channel_name c, f c)) channels.

(** The coverage of an image before [round], per channel. *)
Definition mean_percent (img : image) (c : InkChannel) : num :=
  match c with
  | Cyan => ink_mean_percent (plane C_px img)
  | Magenta => ink_mean_percent (plane M_px img)
  | Yellow => ink_mean_percent (plane Y_px img)
  | Black => black_mean_percent (plane K_px img)
  end.

(** ** Channels, test images and helpers of the statements *)

Definition px_of (c : InkChannel) : Q * Q * Q -> Q :=
  match c with
  | Cyan => C_px
  | Magenta => M_px
  | Yellow => Y_px
  | Black => K_px
  end.

Definition channel_eqb (a b : InkChannel) : bool :=
  match a, b with
  | Cyan, Cyan | Magenta, Magenta | Yellow, Yellow | Black, Black => true
  | _, _ => false
  end.

(** The coverages [cov] with the one of channel [ch] replaced by [x]. *)
Definition with_coverage (cov : InkChannel -> Q) (ch : InkChannel) (x : Q)
  : InkChannel -> Q :=
  fun c => if channel_eqb c ch then x else cov c.

(** The dict of formatted percentages for finite coverages. *)
Definition coverage_dict (cov : InkChannel -> Q) : dict string :=
  dict_of (fun c => percent (round2 (Fin (cov c)))).

Definition uniform (p : pixel) (h w : nat) : image := repeat (repeat p w) h.

Definition white : pixel := (xff, xff, xff)%byte.
Definition cyan : pixel := (xff, xff, x00)%byte.

Definition black : pixel := (x00, x00, x00)%byte.

(** A two-pixel image: RGB (200, 150, 100) and RGB (100, 150, 200). *)
Definition sample : image := [[(x64, x96, xc8); (xc8, x96, x64)]]%byte.

(** A pixel whose three channels are equal: white, black or a gray. *)
Definition gray (p : pixel) : Prop :=
  fst (fst p) = snd (fst p) /\ snd (fst p) = snd p.

(** Membership of a key, as [k in d]. *)
Definition has_key {V : Type} (d : dict V) (k : string) : bool :=
  existsb (String.eqb k) (keys d).

(** Two outcomes agree: the same exception, or values equal as numbers. *)
Definition same_outcome (r r' : result num) : Prop :=
  match r, r' with
  | Ok x, Ok y => (x == y)%num
  | Raise e, Raise e' => e = e'
  | _, _ => False
  end.

(** ** Predicates on text *)

Fixpoint all_digits (s : string) : bool :=
  match s with
  | EmptyString => true
  | String c s' => is_digit c && all_digits s'
  end.

Fixpoint free_of (c : ascii) (s : string) : bool :=
  match s with
  | EmptyString => true
  | String a s' => negb (Ascii.eqb a c) && free_of c s'
  end.

(** A value that is written exactly with at most 17 fractional digits. *)
Definition decimal17 (q : Q) : Prop :=
  exists j, (1 <= j <= 17)%nat /\
            is_integral (Qabs q * inject_Z (10 ^ Z.of_nat j)) = true.

(** ** The planes in float32

    The element-wise expressions of lines 55-59 once more, in IEEE
    binary32 as NumPy evaluates them, to check on the floats themselves
    what the rational model says about the guard and about the values
    that are exactly zero. *)

Module Float32.

Definition prec : Z := 24.
Definition emax : Z := 128.

Definition of_Z (n : Z) : spec_float := binary_normalize prec emax n 0 false.
Definition add32 : spec_float -> spec_float -> spec_float := SFadd prec emax.
Definition sub32 : spec_float -> spec_float -> spec_float := SFsub prec emax.
Definition div32 : spec_float -> spec_float -> spec_float := SFdiv prec emax.

Definition zero32 : spec_float := of_Z 0.
Definition one32 : spec_float := of_Z 1.

(** The float32 nearest to 1e-10. *)
Definition eps32 : spec_float := S754_finite false 14411519 (-57).

Definition of_u8 (b : byte) : spec_float := of_Z (Z.of_N (Byte.to_N b)).

Definition normalize32 (p : pixel) : spec_float * spec_float * spec_float :=
  let '(b, g, r) := p in
  (div32 (of_u8 b) (of_Z 255), div32 (of_u8 g) (of_Z 255),
   div32 (of_u8 r) (of_Z 255)).

Definition max32 (a b : spec_float) : spec_float := if SFltb a b then b else a.

Definition np_max32 (v : spec_float * spec_float * spec_float) : spec_float :=
  max32 (max32 (fst (fst v)) (snd (fst v))) (snd v).

Definition K_px32 (v : spec_float * spec_float * spec_float) : spec_float :=
  sub32 one32 (np_max32 v).

(** [1 - K + 1e-10]. *)
Definition denominator32 (v : spec_float * spec_float * spec_float) : spec_float :=
  add32 (sub32 one32 (K_px32 v)) eps32.

Definition C_px32 (v : spec_float * spec_float * spec_float) : spec_float :=
  div32 (sub32 (sub32 one32 (snd v)) (K_px32 v)) (denominator32 v).
Definition M_px32 (v : spec_float * spec_float * spec_float) : spec_float :=
  div32 (sub32 (sub32 one32 (snd (fst v))) (K_px32 v)) (denominator32 v).
Definition Y_px32 (v : spec_float * spec_float * spec_float) : spec_float :=
  div32 (sub32 (sub32 one32 (fst (fst v))) (K_px32 v)) (denominator32 v).

Definition is_positive32 (x : spec_float) : bool := SFltb zero32 x.

End Float32.

(** * The script on IEEE floats

    The estimator and the calculator once more, on the floats the
    interpreter computes with: NumPy's float32 for the planes and the
    reported coverages, Python's float (binary64) for the amounts, and
    the text the two functions exchange, written by [repr] and read by
    [float]. *)

(** ** Floats and rationals *)

Module IEEE.

Local Open Scope Z_scope.

Definition sf_eqb (x y : spec_float) : bool :=
  match x, y with
  | S754_zero a, S754_zero b => Bool.eqb a b
  | S754_infinity a, S754_infinity b => Bool.eqb a b
  | S754_nan, S754_nan => true
  | S754_finite a m e, S754_finite b n f =>
      Bool.eqb a b && Pos.eqb m n && Z.eqb e f
  | _, _ => false
  end.

Definition pow2Q (e : Z) : Q :=
  if 0 <=? e then inject_Z (2 ^ e) else 1 # Z.to_pos (2 ^ (- e)).

(** The exact value of a finite float (0 for the others). *)
Definition SF2Q (x : spec_float) : Q :=
  match x with
  | S754_finite s m e => (inject_Z (if s then Z.neg m else Z.pos m) * pow2Q e)%Q
  | _ => 0%Q
  end.

(** The float of a format nearest to a rational, ties to even: the
    quotient with three guard bits and a sticky bit, then rounded. *)
Definition Q_to_SF (prec emax : Z) (q : Q) : spec_float :=
  let n := Z.abs (Qnum q) in
  let d := Z.pos (Qden q) in
  let s := Qnum q <? 0 in
  if n =? 0 then S754_zero s
  else
    let k := Z.max 0 (prec + 3 + Z.log2 d - Z.log2 n) in
    let (N, r) := Z.div_eucl (2 ^ k * n) d in
    let sticky := if r =? 0 then 0 else 1 in
    match binary_normalize prec emax (2 * N + sticky) (- k - 1) false with
    | S754_finite _ m e => S754_finite s m e
    | S754_infinity _ => S754_infinity s
    | S754_zero _ => S754_zero s
    | S754_nan => S754_nan
    end.

End IEEE.

Import IEEE.

(** ** Python's float: arithmetic, [round], [repr] and [float] *)

Module Python.

Local Open Scope string_scope.
Local Open Scope Z_scope.

Definition prec : Z := 53.
Definition emax : Z := 1024.

(** An [int] where a float is expected. *)
Definition of_Z (n : Z) : spec_float := binary_normalize prec emax n 0 false.
(** A decimal literal. *)
Definition of_Q : Q -> spec_float := Q_to_SF prec emax.
Definition add : spec_float -> spec_float -> spec_float := SFadd prec emax.
Definition mul : spec_float -> spec_float -> spec_float := SFmul prec emax.
Definition div : spec_float -> spec_float -> spec_float := SFdiv prec emax.

(** [10^E <= n/d]. *)
Definition le_pow10 (E n d : Z) : bool :=
  if 0 <=? E then 10 ^ E * d <=? n else d <=? n * 10 ^ (- E).

Fixpoint adjust_down (fuel : nat) (E n d : Z) : Z :=
  match fuel with
  | O => E
  | S f => if le_pow10 E n d then E else adjust_down f (E - 1) n d
  end.

Fixpoint adjust_up (fuel : nat) (E n d : Z) : Z :=
  match fuel with
  | O => E
  | S f => if le_pow10 (E + 1) n d then adjust_up f (E + 1) n d else E
  end.

(** [floor (log10 (n/d))] for positive [n] and [d]. *)
Definition floor_log10 (n d : Z) : Z :=
  let E0 := (Z.log2 n - Z.log2 d) * 30103 / 100000 in
  adjust_up 4 (adjust_down 4 E0 n d) n d.

Definition pow10Q (e : Z) : Q :=
  if 0 <=? e then inject_Z (10 ^ e) else 1 # Z.to_pos (10 ^ (- e)).

(** The order of the decimal [N * 10^ex] and the binary [a * 2^b]. *)
Definition compare_decimal (N ex a b : Z) : comparison :=
  2 ^ Z.max 0 (- b) * (10 ^ Z.max 0 ex * N)
  ?= 2 ^ Z.max 0 b * (10 ^ Z.max 0 (- ex) * a).

(** [float] reads the decimal [N * 10^ex] as the float [m * 2^e]: the
    decimal lies between the midpoints from that float to the next one
    below and above, a midpoint included when [m] is even.  The float
    below a power of two is only half as far. *)
Definition reads_as (m : BinNums.positive) (e : Z) (N ex : Z) : bool :=
  let at_power := (Z.pos m =? 2 ^ (prec - 1)) && (3 - emax - prec <? e) in
  let below :=
    if at_power then compare_decimal N ex (4 * Z.pos m - 1) (e - 2)
    else compare_decimal N ex (2 * Z.pos m - 1) (e - 1) in
  let above := compare_decimal N ex (2 * Z.pos m + 1) (e - 1) in
  match below, above with
  | Gt, Lt => true
  | Eq, _ | _, Eq => Z.even (Z.pos m)
  | _, _ => false
  end.

(** Quotient and remainder of [num] by [2^s * t]. *)
Definition div_eucl_scaled (num s t : Z) : Z * Z :=
  if t =? 1 then (Z.shiftr num s, Z.land num (Z.ones s))
  else Z.div_eucl num (2 ^ s * t).

(** The decimals [N * 10^ex] of [p] digits on either side of [n / 2^s]
    that read back as [m * 2^e], the nearer one first. *)
Definition candidates (m : BinNums.positive) (e : Z) (n s E : Z) (p : nat)
  : list (Z * Z) :=
  let ex := E - Z.of_nat p + 1 in
  let t := 10 ^ Z.max 0 ex in
  let (lo, r) := div_eucl_scaled (10 ^ Z.max 0 (- ex) * n) s t in
  let keep N := if reads_as m e N ex then [(N, ex)] else [] in
  if r =? 0 then keep lo
  else
    match 2 * r ?= 2 ^ s * t with
    | Lt => keep lo ++ keep (lo + 1)
    | Gt => keep (lo + 1) ++ keep lo
    | Eq => if Z.even lo then keep lo ++ keep (lo + 1)
            else keep (lo + 1) ++ keep lo
    end%list.

(** [n / 2^s] cut after [p] digits. *)
Definition truncated (n s E : Z) (p : nat) : Z * Z :=
  let ex := E - Z.of_nat p + 1 in
  (fst (div_eucl_scaled (10 ^ Z.max 0 (- ex) * n) s (10 ^ Z.max 0 ex)), ex).

(** The decimal of the fewest digits that reads back as [m * 2^e], the
    nearest one among those of that length.  A decimal of 17 digits
    always reads back, and one that reads back still does with a zero
    appended, so the lengths are tried from [p] downwards as long as one
    is found. *)
Fixpoint shortest (p : nat) (m : BinNums.positive) (e : Z) (n s E : Z)
    (found : Z * Z) : Z * Z :=
  match p with
  | O => found
  | S p' =>
      match candidates m e n s E p with
      | c :: _ => shortest p' m e n s E c
      | [] => found
      end
  end.

Fixpoint strip_zeros (fuel : nat) (N ex : Z) : Z * Z :=
  match fuel with
  | O => (N, ex)
  | S f => if (N mod 10 =? 0) && (0 <? N) then strip_zeros f (N / 10) (ex + 1)
           else (N, ex)
  end.

Fixpoint zeros (k : nat) : string :=
  match k with
  | O => ""
  | S k' => String "0" (zeros k')
  end.

(** The digits [ds] with the decimal point after the first [decpt] of
    them, as [repr] lays them out: positional for [-4 < decpt <= 16],
    with an exponent of at least two digits otherwise. *)
Definition format_short (ds : string) (decpt : Z) : string :=
  let len := Z.of_nat (String.length ds) in
  if (-4 <? decpt) && (decpt <=? 16) then
    if decpt <=? 0 then "0." ++ zeros (Z.to_nat (- decpt)) ++ ds
    else if decpt <? len then
      substring 0 (Z.to_nat decpt) ds ++ "."
        ++ substring (Z.to_nat decpt) (Z.to_nat (len - decpt)) ds
    else ds ++ zeros (Z.to_nat (decpt - len)) ++ ".0"
  else
    let e := decpt - 1 in
    let mant := match ds with
                | String c EmptyString => ds
                | String c rest => String c ("." ++ rest)
                | EmptyString => ds
                end in
    mant ++ "e" ++ (if e <? 0 then "-" else "+")
      ++ (if Z.abs e <? 10 then "0" else "") ++ str_int (Z.abs e).

(** The text of the positive float [m * 2^e]. *)
Definition repr_finite (m : BinNums.positive) (e : Z) : string :=
  let n := 2 ^ Z.max 0 e * Z.pos m in
  let s := Z.max 0 (- e) in
  let E := floor_log10 n (2 ^ s) in
  let (N0, ex0) := shortest 17 m e n s E (truncated n s E 17) in
  let (N, ex) := strip_zeros 20 N0 ex0 in
  let ds := str_int N in
  format_short ds (Z.of_nat (String.length ds) + ex).

(** [repr(x)], which is also [str(x)] and what an f-string writes. *)
Definition repr (x : spec_float) : string :=
  match x with
  | S754_nan => "nan"
  | S754_infinity s => if s then "-inf" else "inf"
  | S754_zero s => if s then "-0.0" else "0.0"
  | S754_finite s m e =>
      (if s then "-" else "") ++ repr_finite m e
  end.

(** [round(x, 2)]: the decimal with 2 fractional digits nearest to the
    exact value of [x], ties to even, read back as a float; a zero keeps
    the sign of [x]; nan and the infinities are returned as they are. *)
Definition round2 (x : spec_float) : spec_float :=
  match x with
  | S754_finite s m e =>
      let k := rint (SF2Q x * 100) in
      if k =? 0 then S754_zero s else of_Q (k # 100)%Q
  | _ => x
  end.

Definition is_space (c : ascii) : bool :=
  let n := nat_of_ascii c in
  ((9 <=? n) && (n <=? 13) || (n =? 32) || ((28 <=? n) && (n <=? 31)))%nat.

Fixpoint lstrip_ws (s : string) : string :=
  match s with
  | String c s' => if is_space c then lstrip_ws s' else s
  | EmptyString => s
  end.

Fixpoint rstrip_ws (s : string) : string :=
  match s with
  | EmptyString => EmptyString
  | String c s' =>
      match rstrip_ws s' with
      | EmptyString => if is_space c then EmptyString else String c EmptyString
      | t => String c t
      end
  end.

Definition lower (c : ascii) : ascii :=
  let n := nat_of_ascii c in
  if ((65 <=? n) && (n <=? 90))%nat then ascii_of_nat (n + 32) else c.

Fixpoint lower_string (s : string) : string :=
  match s with
  | EmptyString => EmptyString
  | String c s' => String (lower c) (lower_string s')
  end.

(** [digitpart]: digits with single underscores between them; the value
    and the number of digits. *)
Fixpoint digitpart_from (acc : Z) (len : nat) (after_underscore : bool)
    (s : string) : option (Z * nat) :=
  match s with
  | EmptyString => if after_underscore then None else Some (acc, len)
  | String c s' =>
      if is_digit c then
        digitpart_from (10 * acc + digit_val c) (S len) false s'
      else if Ascii.eqb c "_" then
        if after_underscore then None else digitpart_from acc len true s'
      else None
  end.

Definition digitpart (s : string) : option (Z * nat) :=
  match s with
  | String c _ => if is_digit c then digitpart_from 0 0 false s else None
  | EmptyString => None
  end.

(** Split at the first [e] or [E]. *)
Fixpoint split_exp (s : string) : string * option string :=
  match s with
  | EmptyString => (EmptyString, None)
  | String c s' =>
      if Ascii.eqb c "e" || Ascii.eqb c "E" then (EmptyString, Some s')
      else let (a, b) := split_exp s' in (String c a, b)
  end.

(** [number]: the digits as an integer and the count of those after the
    point. *)
Definition number (s : string) : option (Z * nat) :=
  match split_dot s with
  | (ip, None) =>
      match digitpart ip with
      | Some (i, _) => Some (i, O)
      | None => None
      end
  | (EmptyString, Some fp) => digitpart fp
  | (ip, Some EmptyString) =>
      match digitpart ip with
      | Some (i, _) => Some (i, O)
      | None => None
      end
  | (ip, Some fp) =>
      match digitpart ip, digitpart fp with
      | Some (i, _), Some (f, k) => Some (i * 10 ^ Z.of_nat k + f, k)
      | _, _ => None
      end
  end.

Definition exponent (s : string) : option Z :=
  match s with
  | String "+" s' =>
      match digitpart s' with Some (v, _) => Some v | None => None end
  | String "-" s' =>
      match digitpart s' with Some (v, _) => Some (- v) | None => None end
  | _ => match digitpart s with Some (v, _) => Some v | None => None end
  end.

(** [floatnumber]: its exact value. *)
Definition floatnumber (s : string) : option Q :=
  let (mant, ex) := split_exp s in
  match number mant, ex with
  | Some (v, k), None => Some (inject_Z v * pow10Q (- Z.of_nat k))%Q
  | Some (v, k), Some es =>
      match exponent es with
      | Some e => Some (inject_Z v * pow10Q (e - Z.of_nat k))%Q
      | None => None
      end
  | None, _ => None
  end.

Definition absfloatvalue (s : string) : option spec_float :=
  let l := lower_string s in
  if String.eqb l "inf" || String.eqb l "infinity" then Some (S754_infinity false)
  else if String.eqb l "nan" then Some S754_nan
  else
    match floatnumber s with
    | Some q => Some (of_Q q)
    | None => None
    end.

(** [float(s)]: blanks around the text are dropped, then a sign and a
    [floatnumber], [inf], [infinity] or [nan] in any case; the value is
    the float nearest to the decimal. *)
Definition float (s : string) : result spec_float :=
  let t := rstrip_ws (lstrip_ws s) in
  let (neg, body) :=
    match t with
    | String "-" t' => (true, t')
    | String "+" t' => (false, t')
    | _ => (false, t)
    end in
  match absfloatvalue body with
  | Some x => Ok (if neg then SFopp x else x)
  | None => Raise ValueError
  end.

End Python.

(** ** NumPy's float32 scalars *)

Module NumPy.

Import Float32.
Local Open Scope Z_scope.

Definition mul32 : spec_float -> spec_float -> spec_float := SFmul prec emax.

(** The same value as a Python float. *)
Definition widen (x : spec_float) : spec_float :=
  match x with
  | S754_finite s m e =>
      binary_normalize Python.prec Python.emax (if s then Z.neg m else Z.pos m) e s
  | _ => x
  end.

(** A float64 cast to float32. *)
Definition narrow (x : spec_float) : spec_float :=
  match x with
  | S754_finite s m e =>
      binary_normalize prec emax (if s then Z.neg m else Z.pos m) e s
  | _ => x
  end.

(** The integer [k] as a float32 with the sign [s] when it is zero. *)
Definition of_int32 (s : bool) (k : Z) : spec_float :=
  binary_normalize prec emax k 0 s.

(** [np.rint]: the nearest integer, ties to even. *)
Definition rint32 (x : spec_float) : spec_float :=
  match x with
  | S754_finite s m e => of_int32 s (rint (SF2Q x))
  | _ => x
  end.

(** [round(x, 2)] of an [np.float32], which is [np.round]: multiply by
    100, [rint], divide by 100, each in float32. *)
Definition round2 (x : spec_float) : spec_float :=
  div32 (rint32 (mul32 x (of_Z 100))) (of_Z 100).

(** An [np.float32] in an f-string: [__format__] with an empty format
    takes the value as a Python float and writes that. *)
Definition format (x : spec_float) : string := Python.repr (widen x).

(** The sum of at most 7 elements as [np.add.reduce] takes it: from 0,
    one element after the other. *)
Definition sum32_seq (l : list spec_float) : spec_float :=
  fold_left add32 l zero32.

End NumPy.

(** ** The estimator, the calculator and the upload block on floats *)

Module Binary.

Import Float32.
Import NumPy.

(** The values of a plane, row after row. *)
Definition plane (f : spec_float * spec_float * spec_float -> spec_float)
    (img : image) : list spec_float :=
  map (fun p => f (normalize32 p)) (List.concat img).

(** [channel[channel > 0]]. *)
Definition select_positive (channel : list spec_float) : list spec_float :=
  filter is_positive32 channel.

Section Estimator.

(** [np.add.reduce] on a float32 array.  NumPy adds the elements pairwise
    in blocks; no property below depends on the order. *)
Variable np_sum : list spec_float -> spec_float.

(** [np.mean] of a float32 array: the float32 sum divided by the count in
    float64, as a float32; nan for an empty array. *)
Definition np_mean (l : list spec_float) : spec_float :=
  match l with
  | [] => S754_nan
  | _ => narrow (Python.div (widen (np_sum l))
                   (Python.of_Z (Z.of_nat (List.length l))))
  end.

(** [np.mean(...) * 100], the value [round] is given. *)
Definition percentage (l : list spec_float) : spec_float :=
  mul32 (np_mean l) (of_Z 100).

(** The local function [ink_percentage] (lines 62-63). *)
Definition ink_percentage (channel : list spec_float) : spec_float :=
  round2 (percentage (select_positive channel)).

(** The coverage of a channel before [round]. *)
Definition mean_percent (img : image) (c : InkChannel) : spec_float :=
  match c with
  | Cyan => percentage (select_positive (plane C_px32 img))
  | Magenta => percentage (select_positive (plane M_px32 img))
  | Yellow => percentage (select_positive (plane Y_px32 img))
  | Black => percentage (plane K_px32 img)
  end.

(** What [round] returns for a channel. *)
Definition rounded_percent (img : image) (c : InkChannel) : spec_float :=
  round2 (mean_percent img c).

(** The dict built from a decoded image (lines 55-70). *)
Definition cmyk_coverage_of (img : image) : dict string :=
  let K := plane K_px32 img in
  let C := plane C_px32 img in
  let M := plane M_px32 img in
  let Y := plane Y_px32 img in
  [ ("Cyan", format (ink_percentage C) ++ "%");
    ("Magenta", format (ink_percentage M) ++ "%");
    ("Yellow", format (ink_percentage Y) ++ "%");
    ("Black (K)", format (round2 (percentage K)) ++ "%") ].

Variable imdecode : list byte -> option image.

Definition calculate_cmyk_coverage (fs : files) (image_path : string)
  : option (dict string) :=
  match imread imdecode fs image_path with
  | None => None
  | Some img => Some (cmyk_coverage_of img)
  end.

End Estimator.

(** The module-level names that [calculate_print_cost] reads. *)
Record globals : Type := {
  ink_prices : dict spec_float;
  paper_cost : spec_float;
  markup : spec_float
}.

(** [float(ink_coverage[color].strip('%'))]: the coverage the calculator
    computes with. *)
Definition consumed_coverage (ink_coverage : dict string) (color : string)
  : result spec_float :=
  cov <- getitem ink_coverage color ;;
  Python.float (strip "%" cov).

(** One term of the generator inside [sum] (line 75). *)
Definition ink_term (g : globals) (print_area : spec_float)
    (ink_coverage : dict string) (ink_usage_per_m2 : dict spec_float)
    (color : string) : result spec_float :=
  x <- consumed_coverage ink_coverage color ;;
  usage <- getitem ink_usage_per_m2 color ;;
  price <- getitem (ink_prices g) color ;;
  Ok (Python.mul
        (Python.mul (Python.mul (Python.div x (Python.of_Z 100)) print_area)
           usage)
        price).

(** The terms the generator yields, up to the first exception. *)
Fixpoint generated (f : string -> result spec_float) (colors : list string)
  : result (list spec_float) :=
  match colors with
  | [] => Ok []
  | color :: rest => t <- f color ;; ts <- generated f rest ;; Ok (t :: ts)
  end.

(** The builtin [sum] on floats before Python 3.12: from the int 0, one
    term after the other. *)
Definition sum_left (ts : list spec_float) : spec_float :=
  fold_left Python.add ts (Python.of_Z 0).

Section Calculator.

(** The builtin [sum] on the floats of a generator: [sum_left] before
    Python 3.12, a compensated sum since.  No property below depends on
    which. *)
Variable builtin_sum : list spec_float -> spec_float.

(** Lines 72-85. *)
Definition calculate_print_cost (g : globals)
    (print_width print_height : spec_float)
    (ink_coverage : dict string) (ink_usage_per_m2 : dict spec_float)
  : result (dict string) :=
  let print_area :=
    Python.mul (Python.div print_width (Python.of_Z 1000))
      (Python.div print_height (Python.of_Z 1000)) in
  ts <- generated (ink_term g print_area ink_coverage ink_usage_per_m2)
          (keys (ink_prices g)) ;;
  let total_ink_cost := builtin_sum ts in
  let total_cost := Python.add total_ink_cost (paper_cost g) in
  let final_price :=
    Python.mul total_cost (Python.add (Python.of_Z 1) (markup g)) in
  Ok [ ("Ink Cost", peso ++ Python.repr (Python.round2 total_ink_cost));
       ("Paper Cost", peso ++ Python.repr (paper_cost g));
       ("Total Cost", peso ++ Python.repr (Python.round2 total_cost));
       ("Final Price (with Markup)",
        peso ++ Python.repr (Python.round2 final_price)) ].

End Calculator.

Record printer : Type := {
  INK_USAGE_PER_M2 : dict spec_float;
  DEFAULT_INK_PRICES : dict spec_float
}.

(** A dict of decimal literals, as the floats they denote. *)
Definition literals (d : dict Q) : dict spec_float :=
  map (fun kv => (fst kv, Python.of_Q (snd kv))) d.

Definition PRINTERS : dict printer :=
  [ ("Epson Workforce C5290",
     {| INK_USAGE_PER_M2 :=
          literals [("Cyan", 55.29); ("Magenta", 55.29); ("Yellow", 55.29);
                    ("Black (K)", 55.29)];
        DEFAULT_INK_PRICES :=
          literals [("Cyan", 1.0); ("Magenta", 1.0); ("Yellow", 1.0);
                    ("Black (K)", 1.0)] |});
    ("Xerox VersaLink C405",
     {| INK_USAGE_PER_M2 :=
          literals [("Cyan", 0.332); ("Magenta", 0.332); ("Yellow", 0.332);
                    ("Black (K)", 0.332)];
        DEFAULT_INK_PRICES :=
          literals [("Cyan", 331.75); ("Magenta", 331.75); ("Yellow", 331.75);
                    ("Black (K)", 331.75)] |}) ].

(** What the widgets return in one run of the script. *)
Record inputs : Type := {
  printer_choice : string;                  (* st.selectbox *)
  paper_cost_input : spec_float;            (* st.number_input, a float *)
  markup_percent : Z;                       (* st.slider, an int, 0 to 500 *)
  print_width_in : spec_float;              (* st.number_input *)
  print_height_in : spec_float;             (* st.number_input *)
  ink_price_input : string -> spec_float;   (* st.number_input per colour *)
  uploaded_file : option (list byte)        (* st.file_uploader *)
}.

(** The loop of lines 38-41. *)
Definition read_ink_prices (defaults : dict spec_float)
    (input : string -> spec_float) : dict spec_float :=
  fold_left (fun d color => setitem d color (input color)) (keys defaults) [].

(** How a run ends. *)
Inductive ending : Type :=
| completed                    (* the script ran to its last line *)
| raised (e : exn)             (* an exception of [calculate_print_cost] *)
| unidentified_image.          (* PIL.UnidentifiedImageError, from [st.image] *)

(** What a run has shown, and how it ended. *)
Definition run : Type := list st_call * ending.

Section Script.

(** Pillow identifies the bytes as an image: [st.image] opens the file it
    is given with Pillow and raises where Pillow does. *)
Variable pil_open : list byte -> bool.
(** OpenCV's decoder. *)
Variable imdecode : list byte -> option image.
Variable np_sum : list spec_float -> spec_float.
Variable builtin_sum : list spec_float -> spec_float.
(** The files before the run, and the name [NamedTemporaryFile] picks. *)
Variable fs : files.
Variable temp_filename : string.

(** [st.image(temp_filename, ...)] (line 93). *)
Definition image_shown (fs' : files) : bool :=
  match read_file fs' temp_filename with
  | Some bytes => pil_open bytes
  | None => false
  end.

(** Lines 87-108, for an uploaded file with contents [bytes]. *)
Definition process_upload (g : globals) (PRINT_WIDTH PRINT_HEIGHT : spec_float)
    (printer_config : printer) (bytes : list byte) : run :=
  let fs' := (temp_filename, bytes) :: fs in
  if image_shown fs' then
    let shown := [st_image temp_filename] in
    let cmyk_coverage := calculate_cmyk_coverage np_sum imdecode fs' temp_filename in
    if truthy cmyk_coverage then
      let coverage := match cmyk_coverage with Some d => d | None => [] end in
      let shown := (shown ++ st_subheader "CMYK Ink Coverage"
                      :: write_items coverage)%list in
      match calculate_print_cost builtin_sum g PRINT_WIDTH PRINT_HEIGHT coverage
              (INK_USAGE_PER_M2 printer_config) with
      | Ok pricing =>
          ((shown ++ st_subheader "Cost Calculation"
              :: write_items pricing)%list, completed)
      | Raise e => (shown, raised e)
      end
    else
      ((shown ++ [st_error "Error processing the image. Please try another file."])%list,
       completed)
  else ([], unidentified_image).

(** The script from line 27 on. *)
Definition script (i : inputs) : run :=
  match getitem PRINTERS (printer_choice i) with
  | Raise e => ([], raised e)
  | Ok printer_config =>
      let g := {| ink_prices :=
                    read_ink_prices (DEFAULT_INK_PRICES printer_config)
                      (ink_price_input i);
                  paper_cost := paper_cost_input i;
                  markup := Python.div (Python.of_Z (markup_percent i))
                              (Python.of_Z 100) |} in
      let PRINT_WIDTH := Python.mul (print_width_in i) (Python.of_Q 25.4) in
      let PRINT_HEIGHT := Python.mul (print_height_in i) (Python.of_Q 25.4) in
      match uploaded_file i with
      | Some bytes =>
          process_upload g PRINT_WIDTH PRINT_HEIGHT printer_config bytes
      | None => ([], completed)
      end
  end.

End Script.

End Binary.

(** ** The specification's wording on floats *)

(** Black: [K = 1 - max(R, G, B)] on channel values normalised to [0, 1],
    and its unconditional mean as a percentage. *)
Module SpecBlack.

Import Float32.

Definition R (p : pixel) : spec_float := div32 (of_u8 (snd p)) (of_Z 255).
Definition B (p : pixel) : spec_float := div32 (of_u8 (fst (fst p))) (of_Z 255).



End SpecBlack.

(** Rounding to 2 decimals in float32: [x * 100] is taken to an integer
    [k] at most 1/2 away and [v] is [k / 100]; a zero, an infinity or nan
    in the place of [x * 100] is returned as it is. *)
Definition rounded_to_2_decimals (x v : spec_float) : Prop :=
  match NumPy.mul32 x (Float32.of_Z 100) with
  | S754_finite s m e =>
      exists k, (Qabs (inject_Z k - SF2Q (S754_finite s m e)) <= 1 # 2)%Q /\
                v = Float32.div32 (NumPy.of_int32 s k) (Float32.of_Z 100)
  | z => v = z
  end.

(** The cost formulas of section 4.2 in Python floats, for coverages
    [coveragePercent] known as floats. *)
Module SpecFloat64.

Section CostCalculator.

Variable float_sum : list spec_float -> spec_float.
Variable coveragePercent : InkChannel -> spec_float.
Variables widthMm heightMm : spec_float.
Variables inkUsagePerM2 inkPricePerUnit : InkChannel -> spec_float.
Variables paperCostPerSheet markupFraction : spec_float.

Definition printAreaM2 : spec_float :=
  Python.mul (Python.div widthMm (Python.of_Z 1000))
    (Python.div heightMm (Python.of_Z 1000)).

Definition channelInkCost (channel : InkChannel) : spec_float :=
  Python.mul
    (Python.mul
       (Python.mul (Python.div (coveragePercent channel) (Python.of_Z 100))
          printAreaM2)
       (inkUsagePerM2 channel))
    (inkPricePerUnit channel).

Definition totalInkCost : spec_float :=
  float_sum (map channelInkCost channels).

Definition totalCost : spec_float := Python.add totalInkCost paperCostPerSheet.

Definition finalPrice : spec_float :=
  Python.mul totalCost (Python.add (Python.of_Z 1) markupFraction).

End CostCalculator.

End SpecFloat64.

(** ** Values and inputs of the statements on floats *)

(** The characters of the text of a finite float: the digits, the point,
    the exponent mark and the signs. *)
Definition numeric_char (c : ascii) : bool :=
  is_digit c || Ascii.eqb c "." || Ascii.eqb c "e" || Ascii.eqb c "+"
  || Ascii.eqb c "-".

Fixpoint numeric (s : string) : bool :=
  match s with
  | EmptyString => true
  | String c s' => numeric_char c && numeric s'
  end.

(** Digits, or digits with a point after the first of them or later. *)
Definition mantissa_text (s : string) : Prop :=
  (all_digits s = true /\ s <> EmptyString) \/
  exists a b, all_digits a = true /\ a <> EmptyString /\ all_digits b = true /\
              s = a ++ String "." b.

(** The shapes of [repr] of a positive finite float: a mantissa, or a
    mantissa and a signed exponent. *)
Definition float_text (s : string) : Prop :=
  mantissa_text s \/
  exists m sg ex, mantissa_text m /\ (sg = "+"%char \/ sg = "-"%char) /\
                  all_digits ex = true /\ ex <> EmptyString /\
                  s = m ++ String "e" (String sg ex).

(** The float32 values a coverage between 0 and 100 percent is reported
    as: nan, or [k / 100] for a count [k] of hundredths. *)
Definition two_decimals (v : spec_float) : Prop :=
  v = S754_nan \/
  exists k, (0 <= k <= 10000)%Z /\ v = Float32.div32 (Float32.of_Z k) (Float32.of_Z 100).




(** A decoder for examples: any non-empty file decodes to [sample]. *)
Definition demo_decode (bytes : list byte) : option image :=
  match bytes with
  | [] => None
  | _ => Some sample
  end.

(** Pillow for examples: it identifies what starts with the byte 0x89,
    as a PNG file does. *)
Definition demo_pil (bytes : list byte) : bool :=
  match bytes with
  | x89%byte :: _ => true
  | _ => false
  end.

(** The Epson printer with the default settings and a one-byte upload. *)
Definition demo_inputs : Binary.inputs :=
  {| Binary.printer_choice := "Epson Workforce C5290";
     Binary.paper_cost_input := Python.of_Q DEFAULT_PAPER_COST;
     Binary.markup_percent := 30;
     Binary.print_width_in := Python.of_Q 8.27;
     Binary.print_height_in := Python.of_Q 11.69;
     Binary.ink_price_input := fun _ => Python.of_Q 1.0;
     Binary.uploaded_file := Some [x89%byte] |}.

(** * Properties *)

Local Open Scope Q_scope.

(** ** Numbers *)

Lemma num_eq_refl (x : num) : (x == x)%num.
Proof. destruct x; simpl; [reflexivity | exact I]. Qed.

Lemma num_eq_trans (x y z : num) : (x == y)%num -> (y == z)%num -> (x == z)%num.
Proof.
  destruct x, y, z; simpl; try tauto. intros H1 H2; rewrite H1; exact H2.
Qed.

Lemma add_eq (a a' b b' : num) :
  (a == a')%num -> (b == b')%num -> (a + b == a' + b')%num.
Proof.
  destruct a, a', b, b'; simpl; try tauto. intros H1 H2; rewrite H1, H2; reflexivity.
Qed.

Lemma mul_eq (a a' b b' : num) :
  (a == a')%num -> (b == b')%num -> (a * b == a' * b')%num.
Proof.
  destruct a, a', b, b'; simpl; try tauto. intros H1 H2; rewrite H1, H2; reflexivity.
Qed.

Lemma div_eq (a a' b b' : num) :
  (a == a')%num -> (b == b')%num -> (a / b == a' / b')%num.
Proof.
  destruct a, a', b, b'; simpl; try tauto. intros H1 H2; rewrite H1, H2; reflexivity.
Qed.

Lemma rint_comp (p q : Q) : p == q -> rint p = rint q.
Proof.
  intros H. unfold rint. rewrite (Qfloor_comp _ _ H).
  assert (E : (p - inject_Z (Qfloor q) ?= 1 # 2) = (q - inject_Z (Qfloor q) ?= 1 # 2)).
  { apply Qcompare_comp; [rewrite H; reflexivity | reflexivity]. }
  rewrite E. reflexivity.
Qed.

Lemma hundredths_comp (p q : Q) : p == q -> hundredths p = hundredths q.
Proof. intros H. unfold hundredths. apply rint_comp. rewrite H. reflexivity. Qed.

Lemma round2_comp (x y : num) : (x == y)%num -> round2 x = round2 y.
Proof.
  destruct x, y; simpl; try tauto. intros H. unfold round2Q.
  rewrite (hundredths_comp _ _ H). reflexivity.
Qed.

Lemma rint_floor (q : Q) : (Qfloor q <= rint q)%Z.
Proof.
  unfold rint. destruct (q - inject_Z (Qfloor q) ?= 1 # 2); [ | lia | lia].
  destruct (Z.even (Qfloor q)); lia.
Qed.

(** ** Text: digits *)

Lemma digit_cases (d : Z) :
  (0 <= d < 10)%Z ->
  d = 0%Z \/ d = 1%Z \/ d = 2%Z \/ d = 3%Z \/ d = 4%Z \/
  d = 5%Z \/ d = 6%Z \/ d = 7%Z \/ d = 8%Z \/ d = 9%Z.
Proof. lia. Qed.

Lemma digit_char_ok (d : Z) :
  (0 <= d < 10)%Z ->
  is_digit (digit_char d) = true /\ digit_val (digit_char d) = d.
Proof.
  intros H. destruct (digit_cases d H) as [E | [E | [E | [E | [E | [E | [E | [E | [E | E]]]]]]]]];
    subst d; split; reflexivity.
Qed.

#[local] Opaque digit_char is_digit digit_val.

Lemma all_digits_app (s t : string) :
  all_digits (s ++ t) = all_digits s && all_digits t.
Proof.
  induction s as [| c s IH]; simpl; [reflexivity |].
  rewrite IH, andb_assoc. reflexivity.
Qed.

Lemma length_app (s t : string) :
  String.length (s ++ t) = (String.length s + String.length t)%nat.
Proof. induction s as [| c s IH]; simpl; [reflexivity | rewrite IH; reflexivity]. Qed.

Lemma digits_fixed_all (k : nat) (n : Z) : all_digits (digits_fixed k n) = true.
Proof.
  revert n. induction k as [| k IH]; intros n; simpl; [reflexivity |].
  rewrite all_digits_app, IH. cbn [all_digits andb].
  destruct (digit_char_ok (n mod 10)) as [H _]; [apply Z.mod_pos_bound; lia |].
  rewrite H. reflexivity.
Qed.

Lemma digits_fixed_length (k : nat) (n : Z) : String.length (digits_fixed k n) = k.
Proof.
  revert n. induction k as [| k IH]; intros n; simpl; [reflexivity |].
  rewrite length_app, IH. simpl. lia.
Qed.

Lemma value_digits_app (s t : string) (acc : Z) :
  value_digits acc (s ++ t) =
  match value_digits acc s with
  | Some v => value_digits v t
  | None => None
  end.
Proof.
  revert acc. induction s as [| c s IH]; intros acc; simpl; [reflexivity |].
  destruct (is_digit c); [apply IH | reflexivity].
Qed.

Lemma value_digits_fixed (k : nat) (n acc : Z) :
  value_digits acc (digits_fixed k n) =
  Some (acc * 10 ^ Z.of_nat k + n mod 10 ^ Z.of_nat k)%Z.
Proof.
  revert n acc. induction k as [| k IH]; intros n acc.
  - simpl. rewrite Z.mod_1_r. f_equal. lia.
  - cbn [digits_fixed]. rewrite value_digits_app, IH. cbn [value_digits].
    destruct (digit_char_ok (n mod 10)) as [H1 H2]; [apply Z.mod_pos_bound; lia |].
    rewrite H1, H2. f_equal.
    rewrite Nat2Z.inj_succ, Z.pow_succ_r by lia.
    rewrite (Z.rem_mul_r n 10 (10 ^ Z.of_nat k)) by lia. lia.
Qed.

Lemma ndigits_bound (fuel : nat) (n : Z) :
  (0 <= n < 2 ^ (Z.of_nat fuel + 1))%Z ->
  (n < 10 ^ Z.of_nat (ndigits fuel n))%Z.
Proof.
  revert n. induction fuel as [| f IH]; intros n H.
  - simpl in *. lia.
  - cbn [ndigits]. destruct (Z.ltb_spec n 10) as [L | L]; [simpl; lia |].
    rewrite Nat2Z.inj_succ, Z.pow_succ_r by lia.
    assert (B : (n / 10 < 10 ^ Z.of_nat (ndigits f (n / 10)))%Z).
    { apply IH. split; [apply Z.div_pos; lia |].
      apply Z.div_lt_upper_bound; [lia |].
      rewrite Nat2Z.inj_succ in H.
      replace (Z.succ (Z.of_nat f) + 1)%Z with (Z.succ (Z.of_nat f + 1)) in H by lia.
      rewrite Z.pow_succ_r in H by lia. lia. }
    pose proof (Z.div_mod n 10). pose proof (Z.mod_pos_bound n 10). lia.
Qed.

Lemma ndigits_pos (fuel : nat) (n : Z) : (1 <= ndigits fuel n)%nat.
Proof. destruct fuel; simpl; [lia |]. destruct (n <? 10)%Z; lia. Qed.

Lemma str_int_value (n : Z) :
  (0 <= n)%Z -> value_digits 0 (str_int n) = Some n.
Proof.
  intros H. unfold str_int. rewrite value_digits_fixed. f_equal.
  rewrite Z.mod_small; [lia |]. split; [exact H |].
  apply ndigits_bound. split; [exact H |].
  rewrite Z2Nat.id by apply Z.log2_nonneg.
  destruct (Z.eq_dec n 0) as [-> | N]; [reflexivity |].
  apply Z.log2_spec. lia.
Qed.

Lemma str_int_all (n : Z) : all_digits (str_int n) = true.
Proof. apply digits_fixed_all. Qed.

Lemma str_int_nonempty (n : Z) : (1 <= String.length (str_int n))%nat.
Proof. unfold str_int. rewrite digits_fixed_length. apply ndigits_pos. Qed.

(** ** Text: reading back what [str] wrote *)

Lemma split_dot_digits (s t : string) :
  all_digits s = true ->
  split_dot (s ++ String "." t) = (s, Some t).
Proof.
  induction s as [| c s IH]; intros H.
  - reflexivity.
  - cbn [all_digits] in H. apply andb_prop in H. destruct H as [Hc Hs].
    cbn [append split_dot]. rewrite (IH Hs).
    destruct (Ascii.eqb_spec c ".") as [-> | _]; [discriminate Hc | reflexivity].
Qed.

Lemma unsigned_literal_decimal (m : Z) (k : nat) :
  (0 <= m)%Z -> (1 <= k)%nat ->
  exists q, unsigned_literal (str_decimal m k) = Some q /\
            q == inject_Z m / inject_Z (10 ^ Z.of_nat k).
Proof.
  intros Hm Hk. unfold str_decimal, unsigned_literal.
  set (p := (10 ^ Z.of_nat k)%Z).
  assert (Hp : (0 < p)%Z) by (apply Z.pow_pos_nonneg; lia).
  cbn [append]. rewrite split_dot_digits by apply str_int_all.
  rewrite str_int_value by (apply Z.div_pos; lia).
  rewrite value_digits_fixed, digits_fixed_length. fold p.
  destruct (String.length (str_int (m / p)) =? 0)%nat eqn:E.
  { apply Nat.eqb_eq in E. pose proof (str_int_nonempty (m / p)). lia. }
  cbn [andb]. eexists. split; [reflexivity |].
  rewrite Z.mod_mod by lia.
  replace (m / p * p + (0 * p + m mod p))%Z with m
    by (pose proof (Z.div_mod m p); lia).
  reflexivity.
Qed.

Lemma str_decimal_head (m : Z) (k : nat) :
  exists c s, str_decimal m k = String c s /\ is_digit c = true.
Proof.
  unfold str_decimal. set (p := (10 ^ Z.of_nat k)%Z).
  pose proof (str_int_all (m / p)) as A. pose proof (str_int_nonempty (m / p)) as L.
  destruct (str_int (m / p)) as [| c s]; [simpl in L; lia |].
  cbn [all_digits] in A. apply andb_prop in A. destruct A as [A _].
  exists c. eexists. split; [reflexivity | exact A].
Qed.

Lemma inject_Z_nonzero (p : Z) : (0 < p)%Z -> ~ inject_Z p == 0.
Proof. intros H C. unfold Qeq in C. simpl in C. lia. Qed.

Lemma is_integral_spec (q : Q) :
  is_integral q = true -> inject_Z (Qfloor q) == q.
Proof. unfold is_integral. apply Qeq_bool_eq. Qed.

Lemma places_integral (fuel : nat) (k j : nat) (q : Q) :
  (k <= j <= k + fuel)%nat ->
  is_integral (q * inject_Z (10 ^ Z.of_nat j)) = true ->
  is_integral (q * inject_Z (10 ^ Z.of_nat (places fuel k q))) = true.
Proof.
  revert k. induction fuel as [| f IH]; intros k Hj Hi.
  - simpl. replace k with j by lia. exact Hi.
  - cbn [places].
    destruct (is_integral (q * inject_Z (10 ^ Z.of_nat k))) eqn:E; [exact E |].
    apply IH; [| exact Hi].
    destruct (Nat.eq_dec j k) as [-> | N]; [congruence | lia].
Qed.

Lemma places_pos (fuel k : nat) (q : Q) : (k <= places fuel k q)%nat.
Proof.
  revert k. induction fuel as [| f IH]; intros k; simpl; [lia |].
  destruct (is_integral _); [lia |]. specialize (IH (S k)). lia.
Qed.

Lemma float_of_string_unsigned (c : ascii) (s : string) :
  is_digit c = true ->
  float_of_string (String c s) =
  match unsigned_literal (String c s) with
  | Some q => Ok (Fin q)
  | None => Raise ValueError
  end.
Proof.
  intros Hc. unfold float_of_string.
  assert (Hne : String.eqb (String c s) "nan" = false).
  { cbn [String.eqb].
    destruct (Ascii.eqb_spec c "n") as [-> | _]; [discriminate Hc | reflexivity]. }
  rewrite Hne.
  assert (Hd : c <> "-"%char) by (intros ->; discriminate Hc).
  destruct c as [[] [] [] [] [] [] [] []]; try reflexivity.
  exfalso; apply Hd; reflexivity.
Qed.

Lemma float_of_string_minus (s : string) :
  float_of_string (String "-" s) =
  match unsigned_literal s with
  | Some q => Ok (Fin (- q))
  | None => Raise ValueError
  end.
Proof. reflexivity. Qed.

Lemma float_of_string_str_Q (q : Q) :
  decimal17 q ->
  exists q', float_of_string (str_Q q) = Ok (Fin q') /\ q' == q.
Proof.
  intros [j [Hj Hi]]. unfold str_Q.
  set (a := Qabs q). set (k := places 16 1 a).
  set (m := Qfloor (a * inject_Z (10 ^ Z.of_nat k))).
  assert (Hk : (1 <= k)%nat) by apply places_pos.
  assert (Hp : (0 < 10 ^ Z.of_nat k)%Z) by (apply Z.pow_pos_nonneg; lia).
  assert (Hm : inject_Z m == a * inject_Z (10 ^ Z.of_nat k)).
  { apply is_integral_spec. apply (places_integral 16 1 j); [lia | exact Hi]. }
  assert (Ha : 0 <= a) by apply Qabs_nonneg.
  assert (Hm0 : (0 <= m)%Z).
  { apply (Qfloor_resp_le 0). apply Qmult_le_0_compat; [exact Ha |].
    unfold Qle; simpl; lia. }
  assert (Hq : inject_Z m / inject_Z (10 ^ Z.of_nat k) == a).
  { rewrite Hm. field. apply inject_Z_nonzero, Hp. }
  destruct (unsigned_literal_decimal m k Hm0 Hk) as [v [Hv Ev]].
  destruct (str_decimal_head m k) as [c [s [Es Hc]]].
  assert (Hpos : float_of_string (str_decimal m k) = Ok (Fin v)).
  { rewrite Es, (float_of_string_unsigned c s Hc), <- Es, Hv. reflexivity. }
  destruct (Qlt_le_dec q 0) as [Neg | Pos].
  - destruct (Z.eqb_spec m 0) as [Z0 | NZ].
    + exfalso. rewrite Z0 in Hq. unfold a in Hq.
      assert (Qabs q == 0)
        by (rewrite <- Hq; field; apply inject_Z_nonzero, Hp).
      assert (N : Qabs q == - q) by (apply Qabs_neg, Qlt_le_weak, Neg).
      rewrite N in H. lra.
    + exists (- v). split.
      * cbn [append]. rewrite float_of_string_minus, Hv. reflexivity.
      * assert (N : Qabs q == - q) by (apply Qabs_neg, Qlt_le_weak, Neg).
        rewrite Ev, Hq. unfold a. rewrite N. ring.
  - exists v. split; [exact Hpos |].
    rewrite Ev, Hq. unfold a. apply Qabs_pos. exact Pos.
Qed.

(** ** Text: [strip] undoes the percent sign *)

Lemma free_of_app (c : ascii) (s t : string) :
  free_of c (s ++ t) = free_of c s && free_of c t.
Proof.
  induction s as [| a s IH]; simpl; [reflexivity |].
  rewrite IH, andb_assoc. reflexivity.
Qed.

Lemma all_digits_free (s : string) :
  all_digits s = true -> free_of "%" s = true.
Proof.
  induction s as [| a s IH]; intros H; [reflexivity |].
  cbn [all_digits] in H. apply andb_prop in H. destruct H as [Ha Hs].
  cbn [free_of]. rewrite (IH Hs), andb_true_r.
  destruct (Ascii.eqb_spec a "%") as [-> | _]; [discriminate Ha | reflexivity].
Qed.

Lemma lstrip_free (c : ascii) (s t : string) :
  free_of c s = true -> s <> EmptyString -> lstrip c (s ++ t) = (s ++ t)%string.
Proof.
  destruct s as [| a s]; intros H N; [congruence |].
  cbn [free_of] in H. apply andb_prop in H. destruct H as [H _].
  cbn [append lstrip]. destruct (Ascii.eqb a c); [discriminate H | reflexivity].
Qed.

Lemma rstrip_free (c : ascii) (s : string) :
  free_of c s = true -> rstrip c (s ++ String c EmptyString) = s.
Proof.
  induction s as [| a s IH]; intros H.
  - simpl. rewrite Ascii.eqb_refl. reflexivity.
  - cbn [free_of] in H. apply andb_prop in H. destruct H as [Ha Hs].
    cbn [append rstrip]. rewrite (IH Hs).
    destruct s; [| reflexivity].
    destruct (Ascii.eqb a c); [discriminate Ha | reflexivity].
Qed.

Lemma strip_percent (s : string) :
  free_of "%" s = true -> s <> EmptyString -> strip "%" (s ++ "%") = s.
Proof.
  intros H N. unfold strip. rewrite lstrip_free by assumption.
  apply rstrip_free, H.
Qed.

Lemma str_decimal_free (m : Z) (k : nat) : free_of "%" (str_decimal m k) = true.
Proof.
  unfold str_decimal. rewrite !free_of_app.
  rewrite (all_digits_free _ (str_int_all _)).
  rewrite (all_digits_free _ (digits_fixed_all _ _)). reflexivity.
Qed.

Lemma str_free (x : num) : free_of "%" (str x) = true /\ str x <> EmptyString.
Proof.
  destruct x as [q |]; [| split; [reflexivity | discriminate]].
  cbn [str]. unfold str_Q.
  set (k := places 16 1 (Qabs q)).
  set (m := Qfloor (Qabs q * inject_Z (10 ^ Z.of_nat k))).
  destruct (str_decimal_head m k) as [c [s [Es Hc]]].
  pose proof (str_decimal_free m k) as F.
  split.
  - rewrite free_of_app, F, andb_true_r.
    destruct (Qlt_le_dec q 0); [destruct (m =? 0)%Z |]; reflexivity.
  - rewrite Es.
    destruct (Qlt_le_dec q 0); [destruct (m =? 0)%Z |]; discriminate.
Qed.

(** The values [round] returns are written exactly. *)
Lemma round2Q_decimal (q : Q) : decimal17 (round2Q q).
Proof.
  exists 2%nat. split; [lia |]. unfold is_integral. apply Qeq_bool_iff.
  unfold round2Q. set (h := hundredths q).
  assert (E : Qabs (h # 100) * inject_Z (10 ^ Z.of_nat 2) == inject_Z (Z.abs h)).
  { unfold Qabs. change (10 ^ Z.of_nat 2)%Z with 100%Z.
    unfold Qeq, Qmult, inject_Z. simpl. lia. }
  rewrite (Qfloor_comp _ _ E), Qfloor_Z, E. reflexivity.
Qed.

(** Reading a formatted percentage gives back the rounded value. *)
Lemma float_of_percent (x : num) :
  exists y, float_of_string (strip "%" (percent (round2 x))) = Ok y /\
            (y == round2 x)%num.
Proof.
  unfold percent. destruct (str_free (round2 x)) as [F N].
  rewrite strip_percent by assumption.
  destruct x as [q |]; cbn [round2 str].
  - destruct (float_of_string_str_Q (round2Q q) (round2Q_decimal q)) as [q' [E1 E2]].
    exists (Fin q'). split; [exact E1 | exact E2].
  - exists NaN. split; [reflexivity | exact I].
Qed.

(** ** The calculator against the specification's formulas *)

Section Calculator.

Variable coverage : InkChannel -> num.
Variables print_width print_height : Q.
Variables usage price : InkChannel -> Q.
Variables paper mk : Q.

Let g : globals :=
  {| ink_prices := dict_of price; paper_cost := paper; markup := mk |}.

(** The dict the estimator hands over: formatted, rounded percentages. *)
Let ink_coverage : dict string :=
  dict_of (fun c => percent (round2 (coverage c))).

Lemma consumed_coverage_rounded (c : InkChannel) :
  exists y, consumed_coverage ink_coverage (channel_name c) = Ok y /\
            (y == round2 (coverage c))%num.
Proof.
  destruct (float_of_percent (coverage c)) as [y [E1 E2]].
  exists y. split; [| exact E2].
  rewrite <- E1. destruct c; reflexivity.
Qed.

Lemma ink_term_channel (c : InkChannel) :
  ink_term g (printAreaM2 print_width print_height) ink_coverage
    (dict_of usage) (channel_name c) =
  (x <- consumed_coverage ink_coverage (channel_name c) ;;
   Ok ((((x / Fin 100) * Fin (printAreaM2 print_width print_height))
        * Fin (usage c)) * Fin (price c))%num).
Proof. destruct c; reflexivity. Qed.

Lemma zero_add (x : num) : (Fin 0 + x == x)%num.
Proof. destruct x; simpl; [ring | exact I]. Qed.

(** The amounts of [cost_amounts] are the specification's, on the rounded
    coverages. *)
Lemma cost_amounts_spec :
  exists a,
    cost_amounts g print_width print_height ink_coverage (dict_of usage) = Ok a /\
    (total_ink_cost a ==
       totalInkCost (fun c => round2 (coverage c)) print_width print_height
         usage price)%num /\
    (total_cost a ==
       totalCost (fun c => round2 (coverage c)) print_width print_height
         usage price paper)%num /\
    (final_price a ==
       finalPrice (fun c => round2 (coverage c)) print_width print_height
         usage price paper mk)%num.
Proof.
  unfold cost_amounts.
  change (keys (ink_prices g)) with (map channel_name channels).
  change (print_width / 1000 * (print_height / 1000))
    with (printAreaM2 print_width print_height).
  cbn [channels map py_sum].
  rewrite !ink_term_channel.
  destruct (consumed_coverage_rounded Cyan) as [yc [Ec Hc]].
  destruct (consumed_coverage_rounded Magenta) as [ym [Em Hm]].
  destruct (consumed_coverage_rounded Yellow) as [yy [Ey Hy]].
  destruct (consumed_coverage_rounded Black) as [yk [Ek Hk]].
  rewrite Ec, Em, Ey, Ek. cbn [bind].
  eexists. split; [reflexivity |]. cbn [total_ink_cost total_cost final_price].
  assert (T : forall c y, (y == round2 (coverage c))%num ->
    (y / Fin 100 * Fin (printAreaM2 print_width print_height) * Fin (usage c)
       * Fin (price c) ==
     channelInkCost (fun c => round2 (coverage c)) print_width print_height
       usage price c)%num).
  { intros c y H. unfold channelInkCost.
    repeat apply mul_eq; try apply num_eq_refl.
    apply div_eq; [exact H | apply num_eq_refl]. }
  assert (I : (Fin 0
      + yc / Fin 100 * Fin (printAreaM2 print_width print_height)
          * Fin (usage Cyan) * Fin (price Cyan)
      + ym / Fin 100 * Fin (printAreaM2 print_width print_height)
          * Fin (usage Magenta) * Fin (price Magenta)
      + yy / Fin 100 * Fin (printAreaM2 print_width print_height)
          * Fin (usage Yellow) * Fin (price Yellow)
      + yk / Fin 100 * Fin (printAreaM2 print_width print_height)
          * Fin (usage Black) * Fin (price Black) ==
      totalInkCost (fun c => round2 (coverage c)) print_width print_height
        usage price)%num).
  { unfold totalInkCost. repeat apply add_eq; try (apply T; assumption).
    eapply num_eq_trans; [apply zero_add | apply T; assumption]. }
  split; [exact I |]. split.
  - unfold totalCost. apply add_eq; [exact I | apply num_eq_refl].
  - unfold finalPrice, totalCost. apply mul_eq; [| apply num_eq_refl].
    apply add_eq; [exact I | apply num_eq_refl].
Qed.

End Calculator.

(** ** The estimator: sums and means *)

Lemma fold_left_Qplus (l : list Q) (a : Q) :
  fold_left Qplus l a == a + Qsum l.
Proof.
  unfold Qsum. revert a. induction l as [| x l IH]; intros a; simpl.
  - ring.
  - rewrite (IH (a + x)), (IH (0 + x)). ring.
Qed.

Lemma Qsum_cons (x : Q) (l : list Q) : Qsum (x :: l) == x + Qsum l.
Proof. unfold Qsum at 1. simpl. rewrite fold_left_Qplus. ring. Qed.

Lemma Qsum_lower (b : Q) (l : list Q) :
  (forall x, In x l -> b <= x) ->
  inject_Z (Z.of_nat (List.length l)) * b <= Qsum l.
Proof.
  induction l as [| x l IH]; intros H.
  - unfold Qsum. cbn [List.length fold_left Z.of_nat].
    change (inject_Z 0) with 0. lra.
  - rewrite Qsum_cons. cbn [List.length]. rewrite Nat2Z.inj_succ.
    unfold Z.succ. rewrite inject_Z_plus.
    assert (b <= x) by (apply H; left; reflexivity).
    assert (inject_Z (Z.of_nat (List.length l)) * b <= Qsum l)
      by (apply IH; intros y Hy; apply H; right; exact Hy).
    change (inject_Z 1) with 1. lra.
Qed.

Lemma Qsum_upper (b : Q) (l : list Q) :
  (forall x, In x l -> x <= b) ->
  Qsum l <= inject_Z (Z.of_nat (List.length l)) * b.
Proof.
  induction l as [| x l IH]; intros H.
  - unfold Qsum. cbn [List.length fold_left Z.of_nat].
    change (inject_Z 0) with 0. lra.
  - rewrite Qsum_cons. cbn [List.length]. rewrite Nat2Z.inj_succ.
    unfold Z.succ. rewrite inject_Z_plus.
    assert (x <= b) by (apply H; left; reflexivity).
    assert (Qsum l <= inject_Z (Z.of_nat (List.length l)) * b)
      by (apply IH; intros y Hy; apply H; right; exact Hy).
    change (inject_Z 1) with 1. lra.
Qed.

Lemma length_positive (A : Type) (x : A) (l : list A) :
  0 < inject_Z (Z.of_nat (List.length (x :: l))).
Proof. unfold Qlt. simpl. lia. Qed.

(** The mean of a non-empty array lies between bounds of its elements. *)
Lemma np_mean_bounds (lo hi : Q) (l : list Q) :
  l <> [] ->
  (forall x, In x l -> lo <= x <= hi) ->
  exists m, np_mean l = Fin m /\ lo <= m <= hi.
Proof.
  intros N H. destruct l as [| x l]; [congruence |].
  eexists. split; [reflexivity |].
  pose proof (length_positive Q x l) as P.
  assert (L : inject_Z (Z.of_nat (List.length (x :: l))) * lo <= Qsum (x :: l))
    by (apply Qsum_lower; intros y Hy; apply H, Hy).
  assert (U : Qsum (x :: l) <= inject_Z (Z.of_nat (List.length (x :: l))) * hi)
    by (apply Qsum_upper; intros y Hy; apply H, Hy).
  set (n := inject_Z (Z.of_nat (List.length (x :: l)))) in *.
  split.
  - apply Qle_shift_div_l; [exact P | lra].
  - apply Qle_shift_div_r; [exact P | lra].
Qed.

(** The mean of a non-empty array of strictly positive values is strictly
    positive, and at least any lower bound of the values. *)
Lemma np_mean_lower (lo : Q) (l : list Q) :
  l <> [] ->
  (forall x, In x l -> lo <= x) ->
  exists m, np_mean l = Fin m /\ lo <= m.
Proof.
  intros N H. destruct l as [| x l]; [congruence |].
  eexists. split; [reflexivity |].
  pose proof (length_positive Q x l) as P.
  assert (L : inject_Z (Z.of_nat (List.length (x :: l))) * lo <= Qsum (x :: l))
    by (apply Qsum_lower; intros y Hy; apply H, Hy).
  apply Qle_shift_div_l; [exact P | lra].
Qed.

Lemma positive_spec (q : Q) : positive q = true <-> 0 < q.
Proof.
  unfold positive. destruct (Qlt_le_dec 0 q); split; intros H;
    try reflexivity; try assumption; try discriminate. lra.
Qed.

Lemma select_positive_spec (channel : list (list Q)) (x : Q) :
  In x (select_positive channel) <-> In x (List.concat channel) /\ 0 < x.
Proof.
  unfold select_positive. rewrite filter_In, positive_spec. reflexivity.
Qed.

Lemma select_positive_none (channel : list (list Q)) :
  (forall x, In x (List.concat channel) -> x <= 0) ->
  select_positive channel = [].
Proof.
  intros H. destruct (select_positive channel) as [| x l] eqn:E; [reflexivity |].
  assert (I : In x (select_positive channel)) by (rewrite E; left; reflexivity).
  apply select_positive_spec in I. destruct I as [I P].
  specialize (H x I). lra.
Qed.

(** ** The estimator: planes of a uniform image *)

Lemma plane_elements (f : Q * Q * Q -> Q) (img : image) (x : Q) :
  In x (List.concat (plane f img)) <->
  exists p, In p (List.concat img) /\ x = f (normalize p).
Proof.
  unfold plane. rewrite <- concat_map, in_map_iff.
  split; intros [p [A B]]; exists p; [split; [exact B | symmetry; exact A] |
                                       split; [symmetry; exact B | exact A]].
Qed.

Lemma uniform_pixels (p q : pixel) (h w : nat) :
  In q (List.concat (uniform p h w)) -> q = p.
Proof.
  unfold uniform. rewrite in_concat. intros [row [R I]].
  apply repeat_spec in R. subst row. apply repeat_spec in I. exact I.
Qed.

Lemma uniform_nonempty (f : Q * Q * Q -> Q) (p : pixel) (h w : nat) :
  List.concat (plane f (uniform p (S h) (S w))) <> [].
Proof. simpl. discriminate. Qed.

Lemma uniform_plane (f : Q * Q * Q -> Q) (p : pixel) (h w : nat) (x : Q) :
  In x (List.concat (plane f (uniform p h w))) -> x = f (normalize p).
Proof.
  rewrite plane_elements. intros [q [I ->]].
  rewrite (uniform_pixels p q h w I). reflexivity.
Qed.

(** A plane that is nowhere positive has no mean: [ink_percentage] is nan. *)
Lemma ink_percentage_nan (channel : list (list Q)) :
  (forall x, In x (List.concat channel) -> x <= 0) ->
  ink_percentage channel = NaN.
Proof.
  intros H. unfold ink_percentage, ink_mean_percent.
  rewrite (select_positive_none channel H). reflexivity.
Qed.

(** The mean of an array whose elements all equal [v]. *)
Lemma np_mean_const (v : Q) (l : list Q) :
  l <> [] -> (forall x, In x l -> x = v) ->
  exists m, np_mean l = Fin m /\ m == v.
Proof.
  intros N H.
  destruct (np_mean_bounds v v l N) as [m [E [L U]]].
  - intros x I. rewrite (H x I). lra.
  - exists m. split; [exact E | lra].
Qed.

Lemma select_positive_all (channel : list (list Q)) :
  (forall x, In x (List.concat channel) -> 0 < x) ->
  select_positive channel = List.concat channel.
Proof.
  unfold select_positive. induction (List.concat channel) as [| x l IH]; intros H.
  - reflexivity.
  - cbn [filter].
    assert (P : positive x = true) by (apply positive_spec, H; left; reflexivity).
    rewrite P, IH; [reflexivity |]. intros y Hy. apply H. right. exact Hy.
Qed.

Lemma ink_percentage_const (v : Q) (channel : list (list Q)) :
  List.concat channel <> [] ->
  (forall x, In x (List.concat channel) -> x = v) ->
  0 < v ->
  ink_percentage channel = round2 (Fin (v * 100)).
Proof.
  intros N H P. unfold ink_percentage, ink_mean_percent.
  rewrite select_positive_all by (intros x I; rewrite (H x I); exact P).
  destruct (np_mean_const v _ N H) as [m [E Em]]. rewrite E.
  apply round2_comp. simpl. rewrite Em. reflexivity.
Qed.

Lemma black_percentage_const (v : Q) (K : list (list Q)) :
  List.concat K <> [] ->
  (forall x, In x (List.concat K) -> x = v) ->
  round2 (black_mean_percent K) = round2 (Fin (v * 100)).
Proof.
  intros N H. unfold black_mean_percent.
  destruct (np_mean_const v _ N H) as [m [E Em]]. rewrite E.
  apply round2_comp. simpl. rewrite Em. reflexivity.
Qed.

(** For every image: a cyan, magenta or yellow plane without a positive
    value is reported as nan. *)
Lemma no_positive_reports_nan (img : image) (c : InkChannel) :
  c <> Black ->
  (forall x, In x (List.concat (plane (px_of c) img)) -> x <= 0) ->
  getitem (cmyk_coverage_of img) (channel_name c) = Ok "nan%"%string.
Proof.
  intros NB H.
  destruct c; [| | | congruence]; cbn [px_of] in H;
    cbn [cmyk_coverage_of channel_name getitem String.eqb Ascii.eqb Bool.eqb];
    rewrite (ink_percentage_nan _ H); reflexivity.
Qed.

(** C1.  The specification asks for 0% on a channel without a positive
    value.  On a pure white image of any size (at least one pixel) the
    estimator reports nan for cyan, magenta and yellow: the mean of the
    empty selection.  Only black is 0. *)
Theorem white_image_coverage (h w : nat) :
  cmyk_coverage_of (uniform white (S h) (S w)) =
  [ ("Cyan", "nan%"); ("Magenta", "nan%"); ("Yellow", "nan%");
    ("Black (K)", "0.0%") ]%string.
Proof.
  unfold cmyk_coverage_of.
  rewrite (ink_percentage_nan (plane C_px _))
    by (intros x I; rewrite (uniform_plane _ _ _ _ _ I); vm_compute; discriminate).
  rewrite (ink_percentage_nan (plane M_px _))
    by (intros x I; rewrite (uniform_plane _ _ _ _ _ I); vm_compute; discriminate).
  rewrite (ink_percentage_nan (plane Y_px _))
    by (intros x I; rewrite (uniform_plane _ _ _ _ _ I); vm_compute; discriminate).
  rewrite (black_percentage_const (K_px (normalize white)))
    by (apply uniform_nonempty || apply uniform_plane).
  reflexivity.
Qed.

(** C2.  On a pure cyan image of any size (at least one pixel) the
    estimator reports black 0 and cyan 100, and nan, not 0, for magenta
    and yellow. *)
Theorem cyan_image_coverage (h w : nat) :
  cmyk_coverage_of (uniform cyan (S h) (S w)) =
  [ ("Cyan", "100.0%"); ("Magenta", "nan%"); ("Yellow", "nan%");
    ("Black (K)", "0.0%") ]%string.
Proof.
  unfold cmyk_coverage_of.
  rewrite (ink_percentage_const (C_px (normalize cyan)))
    by (apply uniform_nonempty || apply uniform_plane || reflexivity).
  rewrite (ink_percentage_nan (plane M_px _))
    by (intros x I; rewrite (uniform_plane _ _ _ _ _ I); vm_compute; discriminate).
  rewrite (ink_percentage_nan (plane Y_px _))
    by (intros x I; rewrite (uniform_plane _ _ _ _ _ I); vm_compute; discriminate).
  rewrite (black_percentage_const (K_px (normalize cyan)))
    by (apply uniform_nonempty || apply uniform_plane).
  reflexivity.
Qed.

(** ** The epsilon guard *)

Lemma np_max_cases (v : Q * Q * Q) :
  np_max v = ch0 v \/ np_max v = ch1 v \/ np_max v = ch2 v.
Proof.
  unfold np_max, Qmax. repeat destruct (Qlt_le_dec _ _); auto.
Qed.

Lemma u8_range (b : byte) : 0 <= u8 b / 255 <= 1.
Proof.
  unfold u8. pose proof (Byte.to_N_bounded b) as H.
  assert (Z : (0 <= Z.of_N (Byte.to_N b) <= 255)%Z) by lia.
  destruct Z as [Z0 Z1]. rewrite Zle_Qle in Z0, Z1.
  change (inject_Z 0) with 0 in Z0. change (inject_Z 255) with 255 in Z1.
  split.
  - apply Qle_shift_div_l; lra.
  - apply Qle_shift_div_r; lra.
Qed.

Lemma normalize_range (p : pixel) :
  0 <= ch0 (normalize p) <= 1 /\ 0 <= ch1 (normalize p) <= 1 /\
  0 <= ch2 (normalize p) <= 1.
Proof.
  destruct p as [[b g] r]. unfold normalize, ch0, ch1, ch2. cbn [fst snd].
  auto using u8_range.
Qed.

Lemma guard_in_range (v : Q * Q * Q) :
  0 <= ch0 v <= 1 -> 0 <= ch1 v <= 1 -> 0 <= ch2 v <= 1 ->
  0 <= K_px v <= 1 /\ 0 < 1 - K_px v + eps.
Proof.
  intros H0 H1 H2.
  assert (K : 0 <= K_px v <= 1).
  { unfold K_px. destruct (np_max_cases v) as [E | [E | E]]; rewrite E; lra. }
  split; [exact K | unfold eps; lra].
Qed.

(** Every decoded pixel meets the guard: its channels are bytes over 255. *)
Lemma guard_every_pixel (p : pixel) :
  0 <= K_px (normalize p) <= 1 /\ 0 < 1 - K_px (normalize p) + eps.
Proof.
  destruct (normalize_range p) as [H0 [H1 H2]]. apply guard_in_range; assumption.
Qed.

(** C7.  With the normalised channels in [0, 1], [K] lies in [0, 1] and
    the denominator [1 - K + eps] is strictly positive, so each of the
    three quotients is a genuine one: multiplied by the denominator it
    gives back its numerator. *)
Theorem epsilon_guard (v : Q * Q * Q) :
  0 <= ch0 v <= 1 -> 0 <= ch1 v <= 1 -> 0 <= ch2 v <= 1 ->
  0 <= K_px v <= 1 /\
  0 < 1 - K_px v + eps /\
  C_px v * (1 - K_px v + eps) == 1 - ch2 v - K_px v /\
  M_px v * (1 - K_px v + eps) == 1 - ch1 v - K_px v /\
  Y_px v * (1 - K_px v + eps) == 1 - ch0 v - K_px v.
Proof.
  intros H0 H1 H2. destruct (guard_in_range v H0 H1 H2) as [K D].
  split; [exact K |]. split; [exact D |].
  unfold C_px, M_px, Y_px. repeat split; field; lra.
Qed.

(** The guard at a pure black pixel, where [K = 1]. *)
Lemma epsilon_guard_black :
  K_px (normalize black) == 1 /\
  0 < 1 - K_px (normalize black) + eps.
Proof.
  split; [reflexivity |].
  apply (epsilon_guard (normalize black)); vm_compute; split; discriminate.
Defined.

(** ** Cyan, magenta, yellow: the mean of the positive values *)

Lemma Qdiv_255 (x : Q) : x / 255 == x * (1 # 255).
Proof. reflexivity. Qed.

Lemma ratio_lower (zx zmax : Z) :
  (0 <= zx)%Z -> (0 <= zmax <= 255)%Z ->
  0 < (1 - inject_Z zx / 255 - (1 - inject_Z zmax / 255))
      / (1 - (1 - inject_Z zmax / 255) + eps) ->
  1 # 256 <= (1 - inject_Z zx / 255 - (1 - inject_Z zmax / 255))
             / (1 - (1 - inject_Z zmax / 255) + eps).
Proof.
  intros Hx [Hm0 Hm1] P.
  assert (M0 : 0 <= inject_Z zmax) by (rewrite Zle_Qle in Hm0; exact Hm0).
  assert (M1 : inject_Z zmax <= 255) by (rewrite Zle_Qle in Hm1; exact Hm1).
  assert (I : inject_Z zx < inject_Z zmax -> inject_Z zx + 1 <= inject_Z zmax).
  { intros L. rewrite <- Zlt_Qlt in L.
    assert (J : (zx + 1 <= zmax)%Z) by lia.
    rewrite Zle_Qle, inject_Z_plus in J. exact J. }
  revert P M0 M1 I. generalize (inject_Z zx) (inject_Z zmax).
  intros x m P M0 M1 I. rewrite !Qdiv_255 in *.
  assert (D : 0 < 1 - (1 - m * (1 # 255)) + eps) by (unfold eps; lra).
  assert (N : 0 < 1 - x * (1 # 255) - (1 - m * (1 # 255))).
  { destruct (Qlt_le_dec 0 (1 - x * (1 # 255) - (1 - m * (1 # 255))))
      as [L | L]; [exact L |].
    exfalso. apply (Qlt_irrefl 0). eapply Qlt_le_trans; [exact P |].
    apply Qle_shift_div_r; [exact D | lra]. }
  assert (J : x + 1 <= m) by (apply I; lra).
  apply Qle_shift_div_l; [exact D |]. unfold eps. lra.
Qed.

(** A positive cyan, magenta or yellow value of a pixel is at least 1/256:
    its numerator is a positive multiple of 1/255. *)
Lemma positive_value_lower (c : InkChannel) (p : pixel) :
  c <> Black ->
  0 < px_of c (normalize p) -> 1 # 256 <= px_of c (normalize p).
Proof.
  intros NB. destruct p as [[b g] r].
  assert (Rb : (0 <= Z.of_N (Byte.to_N b) <= 255)%Z)
    by (pose proof (Byte.to_N_bounded b); lia).
  assert (Rg : (0 <= Z.of_N (Byte.to_N g) <= 255)%Z)
    by (pose proof (Byte.to_N_bounded g); lia).
  assert (Rr : (0 <= Z.of_N (Byte.to_N r) <= 255)%Z)
    by (pose proof (Byte.to_N_bounded r); lia).
  destruct c; [| | | congruence];
    unfold px_of, C_px, M_px, Y_px, K_px;
    destruct (np_max_cases (normalize (b, g, r))) as [E | [E | E]]; rewrite E;
    unfold normalize, ch0, ch1, ch2, u8; cbn [fst snd];
    apply ratio_lower; lia.
Qed.

Lemma mean_percent_cmy (img : image) (c : InkChannel) :
  c <> Black ->
  mean_percent img c = ink_mean_percent (plane (px_of c) img).
Proof. destruct c; intros H; [reflexivity | reflexivity | reflexivity | congruence]. Qed.

(** Where a cyan, magenta or yellow plane has a positive value, its mean
    is at least 1/256: the report is 0.39 or more, never 0.0. *)
Lemma positive_mean_lower (img : image) (c : InkChannel) :
  c <> Black ->
  (exists x, In x (List.concat (plane (px_of c) img)) /\ 0 < x) ->
  exists m, np_mean (select_positive (plane (px_of c) img)) = Fin m /\
            1 # 256 <= m /\ (39 <= hundredths (m * 100))%Z.
Proof.
  intros NB [x [I P]].
  destruct (np_mean_lower (1 # 256) (select_positive (plane (px_of c) img)))
    as [m [E L]].
  - intros C. assert (J : In x (select_positive (plane (px_of c) img)))
      by (apply select_positive_spec; split; assumption).
    rewrite C in J. exact J.
  - intros y J. apply select_positive_spec in J. destruct J as [J Py].
    apply plane_elements in J. destruct J as [p [_ ->]].
    apply positive_value_lower; assumption.
  - exists m. split; [exact E |]. split; [exact L |].
    unfold hundredths. eapply Z.le_trans; [| apply rint_floor].
    change 39%Z with (Qfloor 39). apply Qfloor_resp_le. lra.
Qed.

(** C10.  For cyan, magenta and yellow: where the plane has a strictly
    positive value, the mean taken before rounding is the mean of the
    strictly positive values and is strictly positive.  It is at least
    1/256 of full coverage, a positive value of a plane being at least
    that, so the percentage is at least 0.39 and rounds to 39 hundredths
    or more: a report of 0.00 comes neither from a mean that is 0 nor
    from rounding a positive mean. *)
Theorem positive_values_positive_mean (img : image) (c : InkChannel) :
  c <> Black ->
  (exists x, In x (List.concat (plane (px_of c) img)) /\ 0 < x) ->
  exists m,
    np_mean (select_positive (plane (px_of c) img)) = Fin m /\
    0 < m /\
    mean_percent img c = Fin (m * 100) /\
    1 # 256 <= m /\
    (39 <= hundredths (m * 100))%Z.
Proof.
  intros NB H. destruct (positive_mean_lower img c NB H) as [m [E [L R]]].
  exists m. split; [exact E |]. split; [lra |].
  split; [| split; [exact L | exact R]].
  rewrite (mean_percent_cmy img c NB). unfold ink_mean_percent. rewrite E.
  reflexivity.
Qed.

(** The claim on a single cyan pixel, cyan channel. *)
Lemma positive_values_positive_mean_cyan :
  exists m,
    np_mean (select_positive (plane (px_of Cyan) [[cyan]])) = Fin m /\
    0 < m /\
    mean_percent [[cyan]] Cyan = Fin (m * 100) /\
    1 # 256 <= m /\
    (39 <= hundredths (m * 100))%Z.
Proof.
  apply (positive_values_positive_mean [[cyan]] Cyan); [discriminate |].
  exists (C_px (normalize cyan)). split; [left; reflexivity | reflexivity].
Defined.

(** ** The calculator: the formulas and their monotonicity *)

(** C5.  For every coverage result (percentages rounded to 2 decimals,
    as the estimator formats them) and every configuration, the amounts
    [cost_amounts] computes before output rounding are the
    specification's: the print area, the sum of the four channel costs,
    that sum plus the paper cost, and the total times [1 + markup], for
    every markup fraction and so for those of the 0-500% slider. *)
Theorem cost_amounts_formulas (coverage : InkChannel -> num)
    (print_width print_height : Q) (usage price : InkChannel -> Q)
    (paper mk : Q) :
  exists a,
    cost_amounts
      {| ink_prices := dict_of price; paper_cost := paper; markup := mk |}
      print_width print_height
      (dict_of (fun c => percent (round2 (coverage c)))) (dict_of usage) = Ok a /\
    printAreaM2 print_width print_height
      == (print_width / 1000) * (print_height / 1000) /\
    (total_ink_cost a ==
       totalInkCost (fun c => round2 (coverage c)) print_width print_height
         usage price)%num /\
    (total_cost a == total_ink_cost a + Fin paper)%num /\
    (final_price a == total_cost a * Fin (1 + mk))%num.
Proof.
  destruct (cost_amounts_spec coverage print_width print_height usage price
              paper mk) as [a [E [I [T F]]]].
  exists a. split; [exact E |]. split; [reflexivity |]. split; [exact I |].
  unfold cost_amounts in E.
  destruct (py_sum _ _ _) as [ink | e]; [| discriminate E].
  cbn [bind] in E. injection E as <-. cbn [total_ink_cost total_cost final_price].
  split; apply num_eq_refl.
Qed.

Lemma rint_upper (q : Q) : (rint q <= Qfloor q + 1)%Z.
Proof.
  unfold rint. destruct (q - inject_Z (Qfloor q) ?= 1 # 2); [| lia | lia].
  destruct (Z.even (Qfloor q)); lia.
Qed.

(** Rounding to nearest is monotone. *)
Lemma rint_monotone (p q : Q) : p <= q -> (rint p <= rint q)%Z.
Proof.
  intros H. pose proof (Qfloor_resp_le p q H) as F.
  destruct (Z.eq_dec (Qfloor p) (Qfloor q)) as [E | N].
  - unfold rint. rewrite E.
    destruct (Qcompare_spec (p - inject_Z (Qfloor q)) (1 # 2)) as [A | A | A];
      destruct (Qcompare_spec (q - inject_Z (Qfloor q)) (1 # 2)) as [B | B | B];
      try destruct (Z.even (Qfloor q)); try lia; exfalso; lra.
  - pose proof (rint_upper p). pose proof (rint_floor q). lia.
Qed.

Lemma round2Q_monotone (p q : Q) : p <= q -> round2Q p <= round2Q q.
Proof.
  intros H. unfold round2Q, hundredths.
  assert (M : (rint (p * 100) <= rint (q * 100))%Z) by (apply rint_monotone; lra).
  unfold Qle. simpl. lia.
Qed.

Lemma le_eq_compat (a a' b b' : num) :
  (a == a')%num -> (b == b')%num -> (a' <= b')%num -> (a <= b)%num.
Proof.
  destruct a, a', b, b'; simpl; try tauto. intros H1 H2 H. rewrite H1, H2. exact H.
Qed.

Section Monotone.

Variables r r' : InkChannel -> Q.
Variables print_width print_height : Q.
Variables usage price : InkChannel -> Q.
Variables paper mk : Q.

Hypothesis area_nonneg : 0 <= printAreaM2 print_width print_height.
Hypothesis usage_nonneg : forall c, 0 <= usage c.
Hypothesis price_nonneg : forall c, 0 <= price c.
Hypothesis markup_nonneg : 0 <= mk.
Hypothesis coverage_le : forall c, r c <= r' c.

Lemma channelInkCost_monotone (c : InkChannel) :
  (channelInkCost (fun c => Fin (r c)) print_width print_height usage price c <=
   channelInkCost (fun c => Fin (r' c)) print_width print_height usage price c)%num.
Proof.
  unfold channelInkCost. cbn [Num.div Num.mul lift2 Num.le].
  do 3 (apply Qmult_le_compat_r; [| auto]).
  unfold Qdiv. apply Qmult_le_compat_r; [auto | discriminate].
Qed.

Lemma totalInkCost_monotone :
  (totalInkCost (fun c => Fin (r c)) print_width print_height usage price <=
   totalInkCost (fun c => Fin (r' c)) print_width print_height usage price)%num.
Proof.
  pose proof (channelInkCost_monotone Cyan) as C.
  pose proof (channelInkCost_monotone Magenta) as M.
  pose proof (channelInkCost_monotone Yellow) as Y.
  pose proof (channelInkCost_monotone Black) as K.
  unfold totalInkCost, channelInkCost in *.
  cbn [Num.div Num.mul Num.add lift2 Num.le] in *.
  repeat apply Qplus_le_compat; assumption.
Qed.

Lemma totalCost_monotone :
  (totalCost (fun c => Fin (r c)) print_width print_height usage price paper <=
   totalCost (fun c => Fin (r' c)) print_width print_height usage price paper)%num.
Proof.
  pose proof totalInkCost_monotone as I.
  unfold totalCost, totalInkCost, channelInkCost in *.
  cbn [Num.div Num.mul Num.add lift2 Num.le] in *.
  apply Qplus_le_compat; [exact I | apply Qle_refl].
Qed.

Lemma finalPrice_monotone :
  (finalPrice (fun c => Fin (r c)) print_width print_height usage price paper mk <=
   finalPrice (fun c => Fin (r' c)) print_width print_height usage price paper mk)%num.
Proof.
  pose proof totalCost_monotone as T.
  unfold finalPrice, totalCost, totalInkCost, channelInkCost in *.
  cbn [Num.div Num.mul Num.add lift2 Num.le] in *.
  apply Qmult_le_compat_r; [exact T | lra].
Qed.

End Monotone.

Lemma with_coverage_le (cov : InkChannel -> Q) (ch : InkChannel) (x : Q) :
  cov ch <= x -> forall c, cov c <= with_coverage cov ch x c.
Proof.
  intros H c. unfold with_coverage.
  destruct c, ch; cbn [channel_eqb]; try apply Qle_refl; exact H.
Qed.

(** C8.  With a non-negative print area, non-negative usage rates, prices
    and markup, all held fixed (and whatever the paper cost), raising the
    coverage of one channel never lowers the ink cost, the total cost or
    the final price that [cost_amounts] computes. *)
Theorem coverage_monotone (cov : InkChannel -> Q) (ch : InkChannel) (x : Q)
    (print_width print_height : Q) (usage price : InkChannel -> Q)
    (paper mk : Q) :
  0 <= printAreaM2 print_width print_height ->
  (forall c, 0 <= usage c) ->
  (forall c, 0 <= price c) ->
  0 <= mk ->
  cov ch <= x ->
  exists a a',
    cost_amounts
      {| ink_prices := dict_of price; paper_cost := paper; markup := mk |}
      print_width print_height (coverage_dict cov) (dict_of usage) = Ok a /\
    cost_amounts
      {| ink_prices := dict_of price; paper_cost := paper; markup := mk |}
      print_width print_height (coverage_dict (with_coverage cov ch x))
      (dict_of usage) = Ok a' /\
    (total_ink_cost a <= total_ink_cost a')%num /\
    (total_cost a <= total_cost a')%num /\
    (final_price a <= final_price a')%num.
Proof.
  intros HA HU HP HM HC.
  destruct (cost_amounts_spec (fun c => Fin (cov c)) print_width print_height
              usage price paper mk) as [a [E [I [T F]]]].
  destruct (cost_amounts_spec (fun c => Fin (with_coverage cov ch x c))
              print_width print_height usage price paper mk)
    as [a' [E' [I' [T' F']]]].
  exists a, a'. split; [exact E |]. split; [exact E' |].
  assert (R : forall c, round2Q (cov c) <= round2Q (with_coverage cov ch x c))
    by (intros c; apply round2Q_monotone, with_coverage_le, HC).
  split; [| split].
  - eapply le_eq_compat; [exact I | exact I' |].
    apply (totalInkCost_monotone (fun c => round2Q (cov c))
             (fun c => round2Q (with_coverage cov ch x c))); assumption.
  - eapply le_eq_compat; [exact T | exact T' |].
    apply (totalCost_monotone (fun c => round2Q (cov c))
             (fun c => round2Q (with_coverage cov ch x c))); assumption.
  - eapply le_eq_compat; [exact F | exact F' |].
    apply (finalPrice_monotone (fun c => round2Q (cov c))
             (fun c => round2Q (with_coverage cov ch x c))); assumption.
Qed.

(** Raising cyan from 10% to 20% on an A4 sheet, all rates at the Epson
    defaults. *)
Lemma coverage_monotone_A4 :
  exists a a',
    cost_amounts
      {| ink_prices := dict_of (fun _ => 1); paper_cost := 2.8; markup := 0.3 |}
      210 297 (coverage_dict (fun _ => 10)) (dict_of (fun _ => 55.29)) = Ok a /\
    cost_amounts
      {| ink_prices := dict_of (fun _ => 1); paper_cost := 2.8; markup := 0.3 |}
      210 297 (coverage_dict (with_coverage (fun _ => 10) Cyan 20))
      (dict_of (fun _ => 55.29)) = Ok a' /\
    (total_ink_cost a <= total_ink_cost a')%num /\
    (total_cost a <= total_cost a')%num /\
    (final_price a <= final_price a')%num.
Proof.
  apply (coverage_monotone (fun _ => 10) Cyan 20 210 297
           (fun _ => 55.29) (fun _ => 1) 2.8 0.3);
    try (intros c); vm_compute; discriminate.
Defined.

(** ** Rounding between estimator and calculator *)

Lemma cmyk_coverage_dict (img : image) :
  cmyk_coverage_of img = dict_of (fun c => percent (round2 (mean_percent img c))).
Proof. reflexivity. Qed.

Lemma calculate_print_cost_image (img : image)
    (print_width print_height : Q) (usage price : InkChannel -> Q)
    (paper mk : Q) :
  exists a,
    cost_amounts
      {| ink_prices := dict_of price; paper_cost := paper; markup := mk |}
      print_width print_height (cmyk_coverage_of img) (dict_of usage) = Ok a /\
    (total_ink_cost a ==
       totalInkCost (fun c => round2 (mean_percent img c))
         print_width print_height usage price)%num /\
    (total_cost a ==
       totalCost (fun c => round2 (mean_percent img c))
         print_width print_height usage price paper)%num /\
    (final_price a ==
       finalPrice (fun c => round2 (mean_percent img c))
         print_width print_height usage price paper mk)%num /\
    calculate_print_cost
      {| ink_prices := dict_of price; paper_cost := paper; markup := mk |}
      print_width print_height (cmyk_coverage_of img) (dict_of usage) =
    Ok [ ("Ink Cost", peso ++ str (round2 (total_ink_cost a)));
         ("Paper Cost", peso ++ str (Fin paper));
         ("Total Cost", peso ++ str (round2 (total_cost a)));
         ("Final Price (with Markup)", peso ++ str (round2 (final_price a))) ]%string.
Proof.
  rewrite cmyk_coverage_dict.
  destruct (cost_amounts_spec (mean_percent img) print_width print_height
              usage price paper mk) as [a [E [I [T F]]]].
  exists a. repeat (split; [assumption |]).
  unfold calculate_print_cost. rewrite E. reflexivity.
Qed.

(** ** The formatted amounts *)

(** C4.  The paper cost is formatted as entered, not rounded: with a paper
    cost of 2.805 the returned dict shows it with three decimals, next to
    the three rounded amounts. *)
Theorem paper_cost_not_rounded :
  calculate_print_cost
    {| ink_prices := dict_of (fun _ => 1); paper_cost := 2.805; markup := 0.3 |}
    210 297 (cmyk_coverage_of sample) (dict_of (fun _ => 55.29)) =
  Ok [ ("Ink Cost", peso ++ "5.05");
       ("Paper Cost", peso ++ "2.805");
       ("Total Cost", peso ++ "7.86");
       ("Final Price (with Markup)", peso ++ "10.22") ]%string.
Proof. vm_compute. reflexivity. Qed.

(** ** The planes in float32 *)

Section Float32Checks.

Import Float32.

Example eps32_nearest : div32 one32 (of_Z 10000000000) = eps32.
Proof. vm_compute. reflexivity. Qed.

Lemma denominator32_byte (c : byte) :
  is_positive32
    (add32 (sub32 one32 (sub32 one32 (div32 (of_u8 c) (of_Z 255)))) eps32) = true.
Proof. destruct c; vm_compute; reflexivity. Qed.

Lemma max32_cases (a b : spec_float) : max32 a b = a \/ max32 a b = b.
Proof. unfold max32. destruct (SFltb a b); auto. Qed.

(** X14.  The guard in float32: for every pixel the denominator
    [1 - K + 1e-10] is a strictly positive float. *)
Lemma denominator32_positive (p : pixel) :
  is_positive32 (denominator32 (normalize32 p)) = true.
Proof.
  destruct p as [[b g] r]. unfold denominator32, K_px32, np_max32, normalize32.
  cbn [fst snd].
  destruct (max32_cases (div32 (of_u8 b) (of_Z 255)) (div32 (of_u8 g) (of_Z 255)))
    as [E | E]; rewrite E;
    match goal with
    | |- context [max32 ?x ?y] => destruct (max32_cases x y) as [F | F]; rewrite F
    end; apply denominator32_byte.
Qed.

(** The brightest channel of a pixel gives exactly zero, not a small
    positive float: on white all three planes are zero, on cyan the
    magenta and yellow planes, so the selections there are empty; and the
    mean of an empty selection, [0.0 / 0], is nan. *)
Example white_planes32 :
  C_px32 (normalize32 white) = zero32 /\ M_px32 (normalize32 white) = zero32 /\
  Y_px32 (normalize32 white) = zero32 /\ K_px32 (normalize32 white) = zero32.
Proof. repeat split; vm_compute; reflexivity. Qed.

Example cyan_planes32 :
  C_px32 (normalize32 cyan) = one32 /\ M_px32 (normalize32 cyan) = zero32 /\
  Y_px32 (normalize32 cyan) = zero32 /\ K_px32 (normalize32 cyan) = zero32.
Proof. repeat split; vm_compute; reflexivity. Qed.

Example empty_mean32 : div32 zero32 (of_Z 0) = S754_nan.
Proof. reflexivity. Qed.

End Float32Checks.

(** * Further properties *)

(** ** The planes of one pixel *)

Lemma np_max_upper (v : Q * Q * Q) :
  ch0 v <= np_max v /\ ch1 v <= np_max v /\ ch2 v <= np_max v.
Proof.
  unfold np_max, Qmax. repeat destruct (Qlt_le_dec _ _); repeat split; lra.
Qed.

Lemma quotient_range (x m : Q) :
  0 <= x -> x <= m -> 0 <= (1 - x - (1 - m)) / (1 - (1 - m) + eps) <= 1.
Proof.
  intros Hx Hm.
  assert (D : 0 < 1 - (1 - m) + eps) by (unfold eps; lra).
  split.
  - apply Qle_shift_div_l; [exact D | lra].
  - apply Qle_shift_div_r; [exact D | unfold eps; lra].
Qed.

Lemma quotient_zero (m : Q) :
  0 <= m -> (1 - m - (1 - m)) / (1 - (1 - m) + eps) == 0.
Proof. intros Hm. field. unfold eps. lra. Qed.

Lemma px_of_range (c : InkChannel) (p : pixel) :
  0 <= px_of c (normalize p) <= 1.
Proof.
  destruct (normalize_range p) as [H0 [H1 H2]].
  destruct (np_max_upper (normalize p)) as [U0 [U1 U2]].
  destruct c; cbn [px_of]; unfold C_px, M_px, Y_px, K_px;
    try (apply quotient_range; lra).
  destruct (np_max_cases (normalize p)) as [E | [E | E]]; rewrite E; lra.
Qed.

Lemma brightest_zero (p : pixel) :
  C_px (normalize p) == 0 \/ M_px (normalize p) == 0 \/ Y_px (normalize p) == 0.
Proof.
  destruct (normalize_range p) as [H0 [H1 H2]].
  unfold C_px, M_px, Y_px, K_px.
  destruct (np_max_cases (normalize p)) as [E | [E | E]]; rewrite E.
  - right. right. apply quotient_zero. lra.
  - right. left. apply quotient_zero. lra.
  - left. apply quotient_zero. lra.
Qed.

(** X1.  For every pixel the cyan, magenta and yellow values lie between
    0 and 1, the black value too, and at least one of cyan, magenta and
    yellow is 0: the one of the brightest channel. *)
Theorem pixel_planes_range (p : pixel) :
  (forall c, 0 <= px_of c (normalize p) <= 1) /\
  (C_px (normalize p) == 0 \/ M_px (normalize p) == 0 \/ Y_px (normalize p) == 0).
Proof.
  split; [intros c; apply px_of_range | apply brightest_zero].
Qed.

(** ** The range of the reported coverages *)

Lemma np_mean_unit (l : list Q) :
  (forall x, In x l -> 0 <= x <= 1) ->
  np_mean l = NaN \/ exists m, np_mean l = Fin m /\ 0 <= m <= 1.
Proof.
  intros H. destruct l as [| x l]; [left; reflexivity | right].
  apply np_mean_bounds; [discriminate | exact H].
Qed.

Lemma mean_percent_range (img : image) (c : InkChannel) :
  mean_percent img c = NaN \/
  exists q, mean_percent img c = Fin q /\ 0 <= q <= 100.
Proof.
  assert (P : forall x, In x (List.concat (plane (px_of c) img)) -> 0 <= x <= 1).
  { intros x I. apply plane_elements in I. destruct I as [p [_ ->]].
    apply px_of_range. }
  assert (M : forall l, (forall x, In x l -> 0 <= x <= 1) ->
            (np_mean l * Fin 100)%num = NaN \/
            exists q, (np_mean l * Fin 100)%num = Fin q /\ 0 <= q <= 100).
  { intros l H. destruct (np_mean_unit l H) as [E | [m [E B]]]; rewrite E.
    - left. reflexivity.
    - right. exists (m * 100). split; [reflexivity | lra]. }
  destruct c; cbn [mean_percent px_of] in *;
    unfold ink_mean_percent, black_mean_percent; apply M; try exact P;
    intros x I; apply select_positive_spec in I; apply P; tauto.
Qed.

Lemma round2Q_range (q : Q) : 0 <= q <= 100 -> 0 <= round2Q q <= 100.
Proof.
  intros [L U].
  pose proof (round2Q_monotone 0 q L) as A.
  pose proof (round2Q_monotone q 100 U) as B.
  assert (E0 : round2Q 0 == 0) by reflexivity.
  assert (E1 : round2Q 100 == 100) by reflexivity.
  lra.
Qed.

(** X2.  For every image and each of the four channels, the mean
    percentage rounded to hundredths is nan or lies between 0 and 100. *)
Theorem coverage_in_range (img : image) (c : InkChannel) :
  round2 (mean_percent img c) = NaN \/
  exists q, round2 (mean_percent img c) = Fin q /\ 0 <= q <= 100.
Proof.
  destruct (mean_percent_range img c) as [E | [q [E B]]]; rewrite E.
  - left. reflexivity.
  - right. exists (round2Q q). split; [reflexivity | apply round2Q_range, B].
Qed.

(** ** Images without colour *)

Lemma gray_planes (p : pixel) (c : InkChannel) :
  gray p -> c <> Black -> px_of c (normalize p) <= 0.
Proof.
  destruct p as [[b g] r]. intros [E1 E2] NB. cbn [fst snd] in E1, E2. subst g r.
  pose proof (u8_range b) as [H0 H1].
  assert (M : np_max (normalize (b, b, b)) = u8 b / 255).
  { destruct (np_max_cases (normalize (b, b, b))) as [E | [E | E]];
      rewrite E; reflexivity. }
  destruct c; [| | | congruence]; cbn [px_of];
    unfold C_px, M_px, Y_px, K_px; rewrite M;
    unfold normalize, ch0, ch1, ch2; cbn [fst snd];
    rewrite (quotient_zero (u8 b / 255) H0); lra.
Qed.

(** X3.  For every image whose pixels are all gray (white and black
    included), the cyan, magenta and yellow entries are all [nan%]. *)
Theorem gray_image_nan (img : image) :
  (forall p, In p (List.concat img) -> gray p) ->
  getitem (cmyk_coverage_of img) "Cyan" = Ok "nan%"%string /\
  getitem (cmyk_coverage_of img) "Magenta" = Ok "nan%"%string /\
  getitem (cmyk_coverage_of img) "Yellow" = Ok "nan%"%string.
Proof.
  intros H.
  assert (N : forall c, c <> Black ->
            getitem (cmyk_coverage_of img) (channel_name c) = Ok "nan%"%string).
  { intros c NB. apply no_positive_reports_nan; [exact NB |].
    intros x I. apply plane_elements in I. destruct I as [p [I ->]].
    apply gray_planes; [apply H, I | exact NB]. }
  repeat split; [apply (N Cyan) | apply (N Magenta) | apply (N Yellow)];
    discriminate.
Qed.

(** A black pixel next to a mid-gray one. *)
Lemma gray_image_nan_black_gray :
  getitem (cmyk_coverage_of [[black; (x80, x80, x80)%byte]]) "Cyan"
    = Ok "nan%"%string /\
  getitem (cmyk_coverage_of [[black; (x80, x80, x80)%byte]]) "Magenta"
    = Ok "nan%"%string /\
  getitem (cmyk_coverage_of [[black; (x80, x80, x80)%byte]]) "Yellow"
    = Ok "nan%"%string.
Proof.
  apply (gray_image_nan [[black; (x80, x80, x80)%byte]]).
  intros p [<- | [<- | []]]; split; reflexivity.
Defined.

(** X4.  For every image of one colour, whatever the colour and the size,
    at least one of the cyan, magenta and yellow entries is [nan%]. *)
Theorem uniform_image_has_nan (p : pixel) (h w : nat) :
  exists c, c <> Black /\
    getitem (cmyk_coverage_of (uniform p h w)) (channel_name c)
      = Ok "nan%"%string.
Proof.
  assert (N : forall c, c <> Black -> px_of c (normalize p) == 0 ->
            getitem (cmyk_coverage_of (uniform p h w)) (channel_name c)
              = Ok "nan%"%string).
  { intros c NB Z. apply no_positive_reports_nan; [exact NB |].
    intros x I. rewrite (uniform_plane _ _ _ _ _ I). lra. }
  destruct (brightest_zero p) as [Z | [Z | Z]].
  - exists Cyan. split; [discriminate | apply N; [discriminate | exact Z]].
  - exists Magenta. split; [discriminate | apply N; [discriminate | exact Z]].
  - exists Yellow. split; [discriminate | apply N; [discriminate | exact Z]].
Qed.

(** ** nan from the estimator in the calculator *)

Lemma num_eq_nan (x : num) : (x == NaN)%num -> x = NaN.
Proof. destruct x; simpl; [tauto | reflexivity]. Qed.

Lemma totalInkCost_nan (cov : InkChannel -> num) (c : InkChannel)
    (w h : Q) (usage price : InkChannel -> Q) :
  cov c = NaN -> totalInkCost cov w h usage price = NaN.
Proof.
  intros H. unfold totalInkCost, channelInkCost.
  destruct c; rewrite H;
    destruct (cov Cyan), (cov Magenta), (cov Yellow), (cov Black); reflexivity.
Qed.

Lemma mean_percent_nan (img : image) (c : InkChannel) :
  c <> Black ->
  (forall x, In x (List.concat (plane (px_of c) img)) -> x <= 0) ->
  mean_percent img c = NaN.
Proof.
  intros NB H. rewrite (mean_percent_cmy img c NB). unfold ink_mean_percent.
  rewrite (select_positive_none _ H). reflexivity.
Qed.

(** X5.  For every image with a cyan, magenta or yellow plane without a
    positive value, and every configuration, [calculate_print_cost]
    returns nan as ink cost, as total cost and as final price; only the
    paper cost is a number. *)
Theorem nan_coverage_nan_prices (img : image) (c : InkChannel)
    (print_width print_height : Q) (usage price : InkChannel -> Q)
    (paper mk : Q) :
  c <> Black ->
  (forall x, In x (List.concat (plane (px_of c) img)) -> x <= 0) ->
  calculate_print_cost
    {| ink_prices := dict_of price; paper_cost := paper; markup := mk |}
    print_width print_height (cmyk_coverage_of img) (dict_of usage) =
  Ok [ ("Ink Cost", peso ++ "nan");
       ("Paper Cost", peso ++ str (Fin paper));
       ("Total Cost", peso ++ "nan");
       ("Final Price (with Markup)", peso ++ "nan") ]%string.
Proof.
  intros NB H.
  destruct (calculate_print_cost_image img print_width print_height usage price
              paper mk) as [a [_ [I [T [F E]]]]].
  assert (N : totalInkCost (fun c => round2 (mean_percent img c))
                print_width print_height usage price = NaN).
  { apply (totalInkCost_nan _ c). rewrite (mean_percent_nan img c NB H).
    reflexivity. }
  unfold finalPrice, totalCost in F. unfold totalCost in T.
  rewrite N in I, T, F.
  apply num_eq_nan in I. apply num_eq_nan in T. apply num_eq_nan in F.
  rewrite E, I, T, F. reflexivity.
Qed.

(** The prices of a white A4 page. *)
Lemma nan_coverage_nan_prices_white :
  calculate_print_cost
    {| ink_prices := dict_of (fun _ => 1); paper_cost := 2.8; markup := 0.3 |}
    210 297 (cmyk_coverage_of [[white]]) (dict_of (fun _ => 55.29)) =
  Ok [ ("Ink Cost", peso ++ "nan");
       ("Paper Cost", peso ++ str (Fin 2.8));
       ("Total Cost", peso ++ "nan");
       ("Final Price (with Markup)", peso ++ "nan") ]%string.
Proof.
  apply (nan_coverage_nan_prices [[white]] Cyan); [discriminate |].
  intros x [<- | []]. vm_compute. discriminate.
Defined.

(** ** Amounts of finite coverages *)

Lemma totalInkCost_zero (w h : Q) (usage price : InkChannel -> Q) :
  (totalInkCost (fun _ => Fin 0) w h usage price == Fin 0)%num.
Proof.
  unfold totalInkCost, channelInkCost. cbn [Num.div Num.mul Num.add lift2 Num.eq].
  unfold Qdiv. ring.
Qed.

Lemma round2Q_nonneg (q : Q) : 0 <= q -> 0 <= round2Q q.
Proof.
  intros H. pose proof (round2Q_monotone 0 q H) as A.
  assert (E0 : round2Q 0 == 0) by reflexivity. lra.
Qed.

(** X6.  With non-negative coverages, print area, usage rates, prices,
    paper cost and markup, the three amounts [cost_amounts] computes are
    numbers and ordered: 0 <= ink cost <= total cost <= final price. *)
Theorem amounts_ordered (cov : InkChannel -> Q)
    (print_width print_height : Q) (usage price : InkChannel -> Q)
    (paper mk : Q) :
  (forall c, 0 <= cov c) ->
  0 <= printAreaM2 print_width print_height ->
  (forall c, 0 <= usage c) ->
  (forall c, 0 <= price c) ->
  0 <= paper ->
  0 <= mk ->
  exists ink total final,
    cost_amounts
      {| ink_prices := dict_of price; paper_cost := paper; markup := mk |}
      print_width print_height (coverage_dict cov) (dict_of usage) =
    Ok {| total_ink_cost := Fin ink; total_cost := Fin total;
          final_price := Fin final |} /\
    0 <= ink /\ ink <= total /\ total <= final.
Proof.
  intros HC HA HU HP Hpaper HM.
  destruct (cost_amounts_spec (fun c => Fin (cov c)) print_width print_height
              usage price paper mk) as [a [E [I [T F]]]].
  pose proof (totalInkCost_monotone (fun _ => 0) (fun c => round2Q (cov c))
                print_width print_height usage price HA HU HP
                (fun c => round2Q_nonneg _ (HC c))) as L.
  pose proof (totalInkCost_zero print_width print_height usage price) as Z.
  unfold finalPrice, totalCost in F. unfold totalCost in T.
  cbn [round2] in I, T, F.
  destruct (totalInkCost (fun c => Fin (round2Q (cov c))) print_width
              print_height usage price) as [e |] eqn:EE;
    [| destruct (totalInkCost (fun _ => Fin 0) print_width print_height
                   usage price); contradiction].
  destruct (totalInkCost (fun _ => Fin 0) print_width print_height usage price)
    as [z |]; [| contradiction].
  cbn [Num.eq Num.le] in Z, L.
  destruct a as [[i |] [t |] [f |]]; cbn [total_ink_cost total_cost final_price
    Num.add Num.mul lift2 Num.eq] in I, T, F; try contradiction.
  exists i, t, f. split; [exact E |].
  assert (E0 : 0 <= e) by lra.
  assert (P : 0 <= (e + paper) * mk)
    by (apply Qmult_le_0_compat; lra).
  repeat split; lra.
Qed.

(** 10% on every channel, A4, Epson rates. *)
Lemma amounts_ordered_A4 :
  exists ink total final,
    cost_amounts
      {| ink_prices := dict_of (fun _ => 1); paper_cost := 2.8; markup := 0.3 |}
      210 297 (coverage_dict (fun _ => 10)) (dict_of (fun _ => 55.29)) =
    Ok {| total_ink_cost := Fin ink; total_cost := Fin total;
          final_price := Fin final |} /\
    0 <= ink /\ ink <= total /\ total <= final.
Proof.
  apply (amounts_ordered (fun _ => 10) 210 297 (fun _ => 55.29) (fun _ => 1)
           2.8 0.3); try (intros c); vm_compute; discriminate.
Defined.

(** ** [calculate_print_cost] on any dicts: when it returns, what it raises *)

Lemma getitem_keys {V : Type} (d : dict V) (k : string) :
  In k (keys d) -> exists v, getitem d k = Ok v.
Proof.
  induction d as [| [k' v'] d IH]; intros H; [destruct H |].
  cbn [getitem]. destruct (String.eqb_spec k' k) as [-> | N].
  - exists v'. reflexivity.
  - apply IH. destruct H as [H | H]; [contradiction | exact H].
Qed.

Lemma py_sum_ok (f : string -> result num) (colors : list string) (acc : num) :
  (exists r, py_sum f colors acc = Ok r) <->
  (forall c, In c colors -> exists t, f c = Ok t).
Proof.
  revert acc. induction colors as [| c l IH]; intros acc.
  - split; [intros _ c [] | intros _; exists acc; reflexivity].
  - cbn [py_sum]. split.
    + intros [r H] c' [<- | I].
      * destruct (f c) as [t | e]; [exists t; reflexivity | discriminate H].
      * destruct (f c) as [t | e]; [| discriminate H]. cbn [bind] in H.
        apply (proj1 (IH (acc + t)%num)); [exists r; exact H | exact I].
    + intros H. destruct (H c (or_introl eq_refl)) as [t E]. rewrite E.
      cbn [bind]. apply IH. intros c' I. apply H. right. exact I.
Qed.

Lemma py_sum_first_failure (f : string -> result num) (pre post : list string)
    (color : string) (e : exn) (acc : num) :
  (forall c, In c pre -> exists t, f c = Ok t) ->
  f color = Raise e ->
  py_sum f (pre ++ color :: post) acc = Raise e.
Proof.
  revert acc. induction pre as [| c l IH]; intros acc H E.
  - cbn [app py_sum]. rewrite E. reflexivity.
  - cbn [app py_sum]. destruct (H c (or_introl eq_refl)) as [t Et]. rewrite Et.
    cbn [bind]. apply IH; [| exact E]. intros c' I. apply H. right. exact I.
Qed.

Lemma ink_term_ok (g : globals) (area : Q) (ink_coverage : dict string)
    (ink_usage_per_m2 : dict Q) (color : string) :
  In color (keys (ink_prices g)) ->
  ((exists t, ink_term g area ink_coverage ink_usage_per_m2 color = Ok t) <->
   (exists x, consumed_coverage ink_coverage color = Ok x) /\
   (exists u, getitem ink_usage_per_m2 color = Ok u)).
Proof.
  intros I. destruct (getitem_keys _ _ I) as [p Ep]. unfold ink_term.
  rewrite Ep.
  destruct (consumed_coverage ink_coverage color) as [x | e];
    destruct (getitem ink_usage_per_m2 color) as [u | e']; cbn [bind];
    split; try (intros [t H]; discriminate H);
    try (intros [[x' H] _]; discriminate H);
    try (intros [_ [u' H]]; discriminate H).
  - intros _. split; eexists; reflexivity.
  - intros _. eexists. reflexivity.
Qed.

(** X7.  [calculate_print_cost] returns a result exactly when every colour
    that has an ink price has a coverage entry that reads as a number and
    a usage entry; otherwise it raises.  It never prices a job with a
    colour left out. *)
Theorem calculate_print_cost_returns (g : globals) (print_width print_height : Q)
    (ink_coverage : dict string) (ink_usage_per_m2 : dict Q) :
  (exists pricing,
     calculate_print_cost g print_width print_height ink_coverage
       ink_usage_per_m2 = Ok pricing) <->
  (forall color, In color (keys (ink_prices g)) ->
     (exists x, consumed_coverage ink_coverage color = Ok x) /\
     (exists u, getitem ink_usage_per_m2 color = Ok u)).
Proof.
  unfold calculate_print_cost, cost_amounts.
  set (area := print_width / 1000 * (print_height / 1000)).
  set (f := ink_term g area ink_coverage ink_usage_per_m2).
  split.
  - intros [pricing H] color I.
    apply (ink_term_ok g area ink_coverage ink_usage_per_m2 color I).
    apply (proj1 (py_sum_ok f (keys (ink_prices g)) (Fin 0))); [| exact I].
    destruct (py_sum f (keys (ink_prices g)) (Fin 0)) as [r | e];
      [exists r; reflexivity | discriminate H].
  - intros H.
    assert (A : exists r, py_sum f (keys (ink_prices g)) (Fin 0) = Ok r).
    { apply py_sum_ok. intros c I.
      apply (ink_term_ok g area ink_coverage ink_usage_per_m2 c I), H, I. }
    destruct A as [r E]. rewrite E. cbn [bind]. eexists. reflexivity.
Qed.

(** X8.  The exception of the first colour that fails is the one
    [calculate_print_cost] raises: when the colours before it in
    [ink_prices] all give a term and this one raises [e], the call raises
    [e]: [KeyError] for a missing coverage or usage entry, [ValueError]
    for a coverage string that is not a number. *)
Theorem calculate_print_cost_raises (g : globals) (print_width print_height : Q)
    (ink_coverage : dict string) (ink_usage_per_m2 : dict Q)
    (pre post : list string) (color : string) (e : exn) :
  keys (ink_prices g) = (pre ++ color :: post)%list ->
  (forall c, In c pre ->
     exists t, ink_term g ((print_width / 1000) * (print_height / 1000))
                 ink_coverage ink_usage_per_m2 c = Ok t) ->
  ink_term g ((print_width / 1000) * (print_height / 1000))
    ink_coverage ink_usage_per_m2 color = Raise e ->
  calculate_print_cost g print_width print_height ink_coverage
    ink_usage_per_m2 = Raise e.
Proof.
  intros K H E. unfold calculate_print_cost, cost_amounts. rewrite K.
  rewrite (py_sum_first_failure _ pre post color e (Fin 0) H E). reflexivity.
Qed.

(** A coverage dict without yellow, and one with a yellow entry that is
    not a number. *)
Lemma calculate_print_cost_raises_yellow :
  calculate_print_cost
    {| ink_prices := dict_of (fun _ => 1); paper_cost := 2.8; markup := 0.3 |}
    210 297
    [("Cyan", "50.0%"); ("Magenta", "25.0%"); ("Black (K)", "21.57%")]%string
    (dict_of (fun _ => 55.29)) = Raise KeyError /\
  calculate_print_cost
    {| ink_prices := dict_of (fun _ => 1); paper_cost := 2.8; markup := 0.3 |}
    210 297
    [("Cyan", "50.0%"); ("Magenta", "25.0%"); ("Yellow", "n/a");
     ("Black (K)", "21.57%")]%string
    (dict_of (fun _ => 55.29)) = Raise ValueError.
Proof.
  split.
  - apply (calculate_print_cost_raises _ 210 297 _ _
             ["Cyan"; "Magenta"]%string ["Black (K)"]%string "Yellow"%string).
    + reflexivity.
    + intros c [<- | [<- | []]]; eexists; vm_compute; reflexivity.
    + vm_compute. reflexivity.
  - apply (calculate_print_cost_raises _ 210 297 _ _
             ["Cyan"; "Magenta"]%string ["Black (K)"]%string "Yellow"%string).
    + reflexivity.
    + intros c [<- | [<- | []]]; eexists; vm_compute; reflexivity.
    + vm_compute. reflexivity.
Defined.

(** ** Width and height *)

Lemma same_outcome_refl (r : result num) : same_outcome r r.
Proof. destruct r; simpl; [apply num_eq_refl | reflexivity]. Qed.

Lemma ink_term_area (g : globals) (area area' : Q) (ink_coverage : dict string)
    (ink_usage_per_m2 : dict Q) (color : string) :
  area == area' ->
  same_outcome (ink_term g area ink_coverage ink_usage_per_m2 color)
               (ink_term g area' ink_coverage ink_usage_per_m2 color).
Proof.
  intros H. unfold ink_term.
  destruct (consumed_coverage ink_coverage color) as [x | e]; [| reflexivity].
  destruct (getitem ink_usage_per_m2 color) as [u | e]; [| reflexivity].
  destruct (getitem (ink_prices g) color) as [p | e]; [| reflexivity].
  cbn [bind same_outcome].
  repeat apply mul_eq; try apply num_eq_refl. exact H.
Qed.

Lemma py_sum_same (f f' : string -> result num) (colors : list string)
    (acc acc' : num) :
  (forall c, same_outcome (f c) (f' c)) ->
  (acc == acc')%num ->
  same_outcome (py_sum f colors acc) (py_sum f' colors acc').
Proof.
  intros H. revert acc acc'. induction colors as [| c l IH]; intros acc acc' A.
  - exact A.
  - cbn [py_sum]. specialize (H c).
    destruct (f c) as [t | e], (f' c) as [t' | e']; cbn [same_outcome] in H;
      try contradiction.
    + cbn [bind]. apply IH. apply add_eq; assumption.
    + cbn [bind same_outcome]. exact H.
Qed.

Lemma calculate_print_cost_area (g : globals) (w h w' h' : Q)
    (ink_coverage : dict string) (ink_usage_per_m2 : dict Q) :
  (w / 1000) * (h / 1000) == (w' / 1000) * (h' / 1000) ->
  calculate_print_cost g w h ink_coverage ink_usage_per_m2 =
  calculate_print_cost g w' h' ink_coverage ink_usage_per_m2.
Proof.
  intros H. unfold calculate_print_cost, cost_amounts.
  pose proof (py_sum_same _ _ (keys (ink_prices g)) (Fin 0) (Fin 0)
                (fun c => ink_term_area g _ _ ink_coverage ink_usage_per_m2 c H)
                (num_eq_refl _)) as S.
  destruct (py_sum (ink_term g (w / 1000 * (h / 1000)) ink_coverage
                      ink_usage_per_m2) (keys (ink_prices g)) (Fin 0))
    as [i | e];
    destruct (py_sum (ink_term g (w' / 1000 * (h' / 1000)) ink_coverage
                        ink_usage_per_m2) (keys (ink_prices g)) (Fin 0))
    as [i' | e']; cbn [same_outcome] in S; try contradiction.
  - cbn [bind]. unfold format_amounts.
    cbn [total_ink_cost total_cost final_price paper_cost].
    rewrite (round2_comp i i' S).
    rewrite (round2_comp (i + Fin (paper_cost g))%num
               (i' + Fin (paper_cost g))%num)
      by (apply add_eq; [exact S | apply num_eq_refl]).
    rewrite (round2_comp ((i + Fin (paper_cost g)) * Fin (1 + markup g))%num
               ((i' + Fin (paper_cost g)) * Fin (1 + markup g))%num)
      by (apply mul_eq; [apply add_eq; [exact S | apply num_eq_refl]
                        | apply num_eq_refl]).
    reflexivity.
  - cbn [bind]. rewrite S. reflexivity.
Qed.

(** X9.  Swapping print width and height changes nothing: for any dicts
    [calculate_print_cost] returns the same formatted amounts, or raises
    the same exception. *)
Theorem width_height_swap (g : globals) (print_width print_height : Q)
    (ink_coverage : dict string) (ink_usage_per_m2 : dict Q) :
  calculate_print_cost g print_width print_height ink_coverage ink_usage_per_m2 =
  calculate_print_cost g print_height print_width ink_coverage ink_usage_per_m2.
Proof. apply calculate_print_cost_area. ring. Qed.

(** ** The ink prices the operator enters *)

Lemma getitem_setitem_same {V : Type} (d : dict V) (k : string) (v : V) :
  getitem (setitem d k v) k = Ok v.
Proof.
  induction d as [| [k' v'] d IH]; cbn [setitem getitem].
  - rewrite String.eqb_refl. reflexivity.
  - destruct (String.eqb k' k) eqn:E; cbn [getitem]; rewrite E;
      [reflexivity | exact IH].
Qed.

Lemma getitem_setitem_other {V : Type} (d : dict V) (k k' : string) (v : V) :
  k' <> k -> getitem (setitem d k v) k' = getitem d k'.
Proof.
  intros N. induction d as [| [k0 v0] d IH]; cbn [setitem getitem].
  - destruct (String.eqb_spec k k') as [E | _]; [congruence | reflexivity].
  - destruct (String.eqb_spec k0 k) as [-> | N0]; cbn [getitem].
    + destruct (String.eqb_spec k k') as [E | _]; [congruence | reflexivity].
    + destruct (String.eqb k0 k'); [reflexivity | exact IH].
Qed.

Lemma keys_setitem_new {V : Type} (d : dict V) (k : string) (v : V) :
  ~ In k (keys d) -> keys (setitem d k v) = (keys d ++ [k])%list.
Proof.
  induction d as [| [k' v'] d IH]; intros N; [reflexivity |].
  cbn [setitem]. destruct (String.eqb_spec k' k) as [-> | N'].
  - exfalso. apply N. left. reflexivity.
  - unfold keys in *. cbn [map fst app]. f_equal. apply IH.
    intros I. apply N. right. exact I.
Qed.

Lemma getitem_fold_setitem {V : Type} (input : string -> V) (l : list string)
    (d : dict V) (color : string) :
  getitem (fold_left (fun d c => setitem d c (input c)) l d) color =
  if existsb (String.eqb color) l then Ok (input color) else getitem d color.
Proof.
  revert d. induction l as [| c l IH]; intros d; [reflexivity |].
  cbn [fold_left existsb]. rewrite IH.
  destruct (existsb (String.eqb color) l); [rewrite orb_true_r; reflexivity |].
  rewrite orb_false_r. destruct (String.eqb_spec color c) as [-> | N].
  - apply getitem_setitem_same.
  - apply getitem_setitem_other. exact N.
Qed.

(** X10.  After the loop over the printer's default prices, [ink_prices]
    holds for every colour of the printer the price the operator entered
    for it, and no other colour. *)
Theorem read_ink_prices_lookup (defaults : dict Q) (input : string -> Q)
    (color : string) :
  getitem (read_ink_prices defaults input) color =
  if has_key defaults color then Ok (input color) else Raise KeyError.
Proof.
  unfold read_ink_prices, has_key.
  exact (getitem_fold_setitem input (keys defaults) [] color).
Qed.

Lemma keys_fold_setitem {V : Type} (input : string -> V) (l : list string)
    (d : dict V) :
  NoDup l -> (forall c, In c l -> ~ In c (keys d)) ->
  keys (fold_left (fun d c => setitem d c (input c)) l d) = (keys d ++ l)%list.
Proof.
  revert d. induction l as [| c l IH]; intros d ND H.
  - cbn [fold_left]. rewrite app_nil_r. reflexivity.
  - cbn [fold_left]. inversion ND as [| c0 l0 NI ND' E]; subst.
    assert (K : keys (setitem d c (input c)) = (keys d ++ [c])%list)
      by (apply keys_setitem_new, H; left; reflexivity).
    rewrite IH; [rewrite K, <- app_assoc; reflexivity | exact ND' |].
    intros c' I. rewrite K. intros J. apply in_app_or in J.
    destruct J as [J | [<- | []]]; [apply (H c' (or_intror I) J) | exact (NI I)].
Qed.

(** X11.  When the printer's default prices name each colour once,
    [ink_prices] has the same colours in the same order: the order in
    which [calculate_print_cost] adds the channel costs. *)
Theorem read_ink_prices_keys (defaults : dict Q) (input : string -> Q) :
  NoDup (keys defaults) ->
  keys (read_ink_prices defaults input) = keys defaults.
Proof.
  intros ND. unfold read_ink_prices.
  rewrite (keys_fold_setitem input (keys defaults) [] ND); [reflexivity |].
  intros c _ [].
Qed.

(** The Epson defaults. *)
Lemma read_ink_prices_keys_epson :
  keys (read_ink_prices (dict_of (fun _ => 1.0)) (fun _ => 2.5)) =
  keys (dict_of (fun _ : InkChannel => 1.0)).
Proof.
  apply (read_ink_prices_keys (dict_of (fun _ => 1.0)) (fun _ => 2.5)).
  repeat constructor; cbn; intuition discriminate.
Defined.

(** ** The error of rounding to hundredths *)

Lemma rint_error (q : Q) :
  - (1 # 2) <= inject_Z (rint q) - q <= 1 # 2.
Proof.
  pose proof (Qfloor_le q) as L. pose proof (Qlt_floor q) as U.
  rewrite inject_Z_plus in U. change (inject_Z 1) with 1 in U.
  unfold rint.
  destruct (Qcompare_spec (q - inject_Z (Qfloor q)) (1 # 2)) as [A | A | A].
  - destruct (Z.even (Qfloor q)); [lra |].
    rewrite inject_Z_plus. change (inject_Z 1) with 1. lra.
  - lra.
  - rewrite inject_Z_plus. change (inject_Z 1) with 1. lra.
Qed.

Lemma round2Q_error (q : Q) : - (1 # 200) <= round2Q q - q <= 1 # 200.
Proof.
  unfold round2Q, hundredths. pose proof (rint_error (q * 100)) as H.
  rewrite (Qmake_Qdiv (rint (q * 100)) 100).
  set (r := inject_Z (rint (q * 100))) in *.
  change (inject_Z (Z.pos 100)) with 100.
  assert (E : r / 100 == r * (1 # 100)) by reflexivity.
  rewrite E. lra.
Qed.

(** ** The planes in float32, continued *)

Section Float32Zero.

Import Float32.

Lemma brightest32_byte (c : byte) :
  div32 (sub32 (sub32 one32 (div32 (of_u8 c) (of_Z 255)))
               (sub32 one32 (div32 (of_u8 c) (of_Z 255))))
        (add32 (sub32 one32 (sub32 one32 (div32 (of_u8 c) (of_Z 255)))) eps32)
  = zero32.
Proof. destruct c; vm_compute; reflexivity. Qed.

Lemma np_max32_cases (v : spec_float * spec_float * spec_float) :
  np_max32 v = fst (fst v) \/ np_max32 v = snd (fst v) \/ np_max32 v = snd v.
Proof.
  unfold np_max32.
  destruct (max32_cases (max32 (fst (fst v)) (snd (fst v))) (snd v)) as [E | E];
    rewrite E; [| auto].
  destruct (max32_cases (fst (fst v)) (snd (fst v))) as [F | F]; rewrite F; auto.
Qed.

(** X15.  In float32, for every pixel, at least one of the cyan, magenta
    and yellow values is exactly zero, no rounding residue: the one of
    the brightest channel.  It is not selected by [channel > 0]. *)
Theorem brightest32_zero (p : pixel) :
  C_px32 (normalize32 p) = zero32 \/ M_px32 (normalize32 p) = zero32 \/
  Y_px32 (normalize32 p) = zero32.
Proof.
  destruct (np_max32_cases (normalize32 p)) as [E | [E | E]].
  - right. right. unfold Y_px32, denominator32, K_px32. rewrite E.
    destruct p as [[b g] r]. apply brightest32_byte.
  - right. left. unfold M_px32, denominator32, K_px32. rewrite E.
    destruct p as [[b g] r]. apply brightest32_byte.
  - left. unfold C_px32, denominator32, K_px32. rewrite E.
    destruct p as [[b g] r]. apply brightest32_byte.
Qed.

End Float32Zero.

(** ** No markup *)

Lemma mul_one (x : num) (k : Q) : k == 0 -> (x * Fin (1 + k) == x)%num.
Proof. intros H. destruct x; simpl; [rewrite H; ring | exact I]. Qed.

(** X16.  With a markup of 0 the final price shown is the total cost
    shown, whenever [calculate_print_cost] returns. *)
Theorem no_markup_final_is_total (g : globals) (print_width print_height : Q)
    (ink_coverage : dict string) (ink_usage_per_m2 : dict Q)
    (pricing : dict string) :
  markup g == 0 ->
  calculate_print_cost g print_width print_height ink_coverage
    ink_usage_per_m2 = Ok pricing ->
  exists amount,
    getitem pricing "Total Cost" = Ok amount /\
    getitem pricing "Final Price (with Markup)" = Ok amount.
Proof.
  intros M H. unfold calculate_print_cost, cost_amounts in H.
  destruct (py_sum _ _ _) as [ink | e]; [| discriminate H].
  cbn [bind] in H. injection H as <-.
  unfold format_amounts. cbn [total_cost final_price].
  eexists. split; [reflexivity |].
  cbn [getitem String.eqb Ascii.eqb Bool.eqb].
  rewrite (round2_comp _ _ (mul_one (ink + Fin (paper_cost g))%num _ M)).
  reflexivity.
Qed.

(** The sample image on A4 at 0%. *)
Lemma no_markup_final_is_total_sample :
  exists amount,
    getitem [ ("Ink Cost", peso ++ "5.05"); ("Paper Cost", peso ++ "2.8");
              ("Total Cost", peso ++ "7.85");
              ("Final Price (with Markup)", peso ++ "7.85") ]%string
      "Total Cost" = Ok amount /\
    getitem [ ("Ink Cost", peso ++ "5.05"); ("Paper Cost", peso ++ "2.8");
              ("Total Cost", peso ++ "7.85");
              ("Final Price (with Markup)", peso ++ "7.85") ]%string
      "Final Price (with Markup)" = Ok amount.
Proof.
  apply (no_markup_final_is_total
           {| ink_prices := dict_of (fun _ => 1); paper_cost := 2.8; markup := 0 |}
           210 297 (cmyk_coverage_of sample) (dict_of (fun _ => 55.29))).
  - reflexivity.
  - vm_compute. reflexivity.
Defined.

(** ** Black images *)

(** X17.  On a pure black image of any size (at least one pixel) the
    guarded quotients are 0, so cyan, magenta and yellow are nan, and
    black is 100. *)
Theorem black_image_coverage (h w : nat) :
  cmyk_coverage_of (uniform black (S h) (S w)) =
  [ ("Cyan", "nan%"); ("Magenta", "nan%"); ("Yellow", "nan%");
    ("Black (K)", "100.0%") ]%string.
Proof.
  unfold cmyk_coverage_of.
  rewrite (ink_percentage_nan (plane C_px _))
    by (intros x I; rewrite (uniform_plane _ _ _ _ _ I); vm_compute; discriminate).
  rewrite (ink_percentage_nan (plane M_px _))
    by (intros x I; rewrite (uniform_plane _ _ _ _ _ I); vm_compute; discriminate).
  rewrite (ink_percentage_nan (plane Y_px _))
    by (intros x I; rewrite (uniform_plane _ _ _ _ _ I); vm_compute; discriminate).
  rewrite (black_percentage_const (K_px (normalize black)))
    by (apply uniform_nonempty || apply uniform_plane).
  reflexivity.
Qed.

(** * Properties on floats *)

Local Open Scope Z_scope.

(** ** Text: what [repr] writes, [float] reads *)

Lemma sf_eqb_eq (x y : spec_float) : sf_eqb x y = true -> x = y.
Proof.
  destruct x as [a | a | | a m e], y as [b | b | | b n f]; cbn [sf_eqb];
    intros H; try discriminate H; try reflexivity.
  - apply Bool.eqb_prop in H. congruence.
  - apply Bool.eqb_prop in H. congruence.
  - apply andb_prop in H. destruct H as [H He]. apply andb_prop in H.
    destruct H as [Hs Hm]. apply Bool.eqb_prop in Hs. apply Pos.eqb_eq in Hm.
    apply Z.eqb_eq in He. congruence.
Qed.

Lemma digit_is (c : ascii) :
  is_digit c = true ->
  Python.is_space c = false /\ Python.lower c = c /\
  Ascii.eqb c "." = false /\ Ascii.eqb c "e" = false /\
  Ascii.eqb c "E" = false /\ Ascii.eqb c "_" = false /\
  Ascii.eqb c "i" = false /\ Ascii.eqb c "n" = false /\
  Ascii.eqb c "+" = false /\ Ascii.eqb c "-" = false.
Proof.
  destruct c as [[] [] [] [] [] [] [] []]; intros H; vm_compute in H;
    try discriminate H; vm_compute; repeat split.
Qed.

Lemma numeric_char_is (c : ascii) :
  numeric_char c = true ->
  Python.is_space c = false /\ Ascii.eqb c "%" = false.
Proof.
  destruct c as [[] [] [] [] [] [] [] []]; intros H; vm_compute in H;
    try discriminate H; vm_compute; split; reflexivity.
Qed.

Lemma digit_numeric_char (c : ascii) : is_digit c = true -> numeric_char c = true.
Proof. intros H. unfold numeric_char. rewrite H. reflexivity. Qed.

Lemma numeric_app (s t : string) :
  numeric (s ++ t) = numeric s && numeric t.
Proof.
  induction s as [| c s IH]; [reflexivity |].
  cbn [append numeric]. rewrite IH. apply andb_assoc.
Qed.

Lemma all_digits_numeric (s : string) : all_digits s = true -> numeric s = true.
Proof.
  induction s as [| c s IH]; [reflexivity |]. cbn [all_digits numeric].
  intros H. apply andb_prop in H. destruct H as [Hc Hs].
  rewrite (digit_numeric_char c Hc), (IH Hs). reflexivity.
Qed.

Lemma numeric_free (s : string) : numeric s = true -> free_of "%" s = true.
Proof.
  induction s as [| c s IH]; [reflexivity |]. cbn [numeric free_of].
  intros H. apply andb_prop in H. destruct H as [Hc Hs].
  destruct (numeric_char_is c Hc) as [_ E]. rewrite E, (IH Hs). reflexivity.
Qed.

Lemma lstrip_ws_numeric (s : string) : numeric s = true -> Python.lstrip_ws s = s.
Proof.
  destruct s as [| c s]; [reflexivity |]. cbn [numeric Python.lstrip_ws].
  intros H. apply andb_prop in H. destruct H as [Hc _].
  destruct (numeric_char_is c Hc) as [E _]. rewrite E. reflexivity.
Qed.

Lemma rstrip_ws_numeric (s : string) : numeric s = true -> Python.rstrip_ws s = s.
Proof.
  induction s as [| c s IH]; [reflexivity |]. cbn [numeric Python.rstrip_ws].
  intros H. apply andb_prop in H. destruct H as [Hc Hs].
  rewrite (IH Hs). destruct (numeric_char_is c Hc) as [E _].
  destruct s; [rewrite E |]; reflexivity.
Qed.

Lemma digitpart_from_digits (s : string) (acc : Z) (len : nat) :
  all_digits s = true ->
  exists v n, Python.digitpart_from acc len false s = Some (v, n).
Proof.
  revert acc len. induction s as [| c s IH]; intros acc len H.
  - eexists _, _. reflexivity.
  - cbn [all_digits] in H. apply andb_prop in H. destruct H as [Hc Hs].
    cbn [Python.digitpart_from]. rewrite Hc. apply IH, Hs.
Qed.

Lemma digitpart_digits (s : string) :
  all_digits s = true -> s <> EmptyString ->
  exists v n, Python.digitpart s = Some (v, n).
Proof.
  intros H N. destruct s as [| c s]; [contradiction |].
  unfold Python.digitpart. pose proof H as H'. cbn [all_digits] in H'.
  apply andb_prop in H'. destruct H' as [Hc _]. rewrite Hc.
  apply digitpart_from_digits, H.
Qed.

Lemma split_dot_none (s : string) :
  all_digits s = true -> split_dot s = (s, None).
Proof.
  induction s as [| c s IH]; intros H; [reflexivity |].
  cbn [all_digits] in H. apply andb_prop in H. destruct H as [Hc Hs].
  cbn [split_dot]. rewrite (IH Hs).
  destruct (digit_is c Hc) as [_ [_ [E _]]]. rewrite E. reflexivity.
Qed.

Lemma number_integer (s : string) :
  all_digits s = true -> s <> EmptyString ->
  exists v k, Python.number s = Some (v, k).
Proof.
  intros H N. unfold Python.number. rewrite (split_dot_none s H).
  destruct (digitpart_digits s H N) as [v [n E]].
  destruct s as [| c s]; [contradiction |]. rewrite E.
  eexists _, _. reflexivity.
Qed.

Lemma number_decimal (a b : string) :
  all_digits a = true -> a <> EmptyString -> all_digits b = true ->
  exists v k, Python.number (a ++ String "." b) = Some (v, k).
Proof.
  intros Ha Na Hb. unfold Python.number. rewrite (split_dot_digits a b Ha).
  destruct (digitpart_digits a Ha Na) as [v [n E]].
  destruct a as [| c a]; [contradiction |].
  destruct b as [| d b].
  - rewrite E. eexists _, _. reflexivity.
  - destruct (digitpart_digits (String d b) Hb) as [w [k F]]; [discriminate |].
    rewrite E, F. eexists _, _. reflexivity.
Qed.

Lemma number_mantissa (m : string) :
  mantissa_text m -> exists v k, Python.number m = Some (v, k).
Proof.
  intros [[H N] | [a [b [Ha [Na [Hb ->]]]]]].
  - apply number_integer; assumption.
  - apply number_decimal; assumption.
Qed.

Lemma split_exp_digits (s t : string) :
  all_digits s = true ->
  Python.split_exp (s ++ t) =
  let (a, b) := Python.split_exp t in (s ++ a, b).
Proof.
  induction s as [| c s IH]; intros H.
  - cbn [append]. destruct (Python.split_exp t). reflexivity.
  - cbn [all_digits] in H. apply andb_prop in H. destruct H as [Hc Hs].
    cbn [append Python.split_exp]. rewrite (IH Hs).
    destruct (digit_is c Hc) as [_ [_ [_ [E1 [E2 _]]]]]. rewrite E1, E2.
    cbn [orb]. destruct (Python.split_exp t). reflexivity.
Qed.

Lemma string_app_assoc (s t u : string) : (s ++ t) ++ u = s ++ (t ++ u).
Proof.
  induction s as [| c s IH]; [reflexivity |]. cbn [append]. now rewrite IH.
Qed.

Lemma split_exp_mantissa (m t : string) :
  mantissa_text m ->
  Python.split_exp (m ++ t) =
  let (a, b) := Python.split_exp t in (m ++ a, b).
Proof.
  intros [[H N] | [a [b [Ha [Na [Hb ->]]]]]].
  - apply split_exp_digits, H.
  - rewrite string_app_assoc, (split_exp_digits a _ Ha). cbn [append].
    cbn [Python.split_exp]. change (Ascii.eqb "." "e" || Ascii.eqb "." "E")%bool with false.
    cbv iota. rewrite (split_exp_digits b t Hb).
    destruct (Python.split_exp t). rewrite string_app_assoc. reflexivity.
Qed.

Lemma append_empty (s : string) : s ++ "" = s.
Proof. induction s as [| c s IH]; [reflexivity |]. cbn [append]. now rewrite IH. Qed.

Lemma exponent_signed (sg : ascii) (ex : string) :
  sg = "+"%char \/ sg = "-"%char -> all_digits ex = true -> ex <> EmptyString ->
  exists e, Python.exponent (String sg ex) = Some e.
Proof.
  intros S H N. destruct (digitpart_digits ex H N) as [v [n E]].
  destruct S as [-> | ->]; cbn [Python.exponent]; rewrite E; eexists; reflexivity.
Qed.

Lemma floatnumber_text (s : string) :
  float_text s -> exists q, Python.floatnumber s = Some q.
Proof.
  intros [M | [m [sg [ex [M [S [H [N ->]]]]]]]]; unfold Python.floatnumber.
  - rewrite <- (append_empty s), (split_exp_mantissa s "" M).
    cbn [Python.split_exp]. rewrite append_empty.
    destruct (number_mantissa s M) as [v [k E]]. rewrite E. eexists. reflexivity.
  - rewrite (split_exp_mantissa m _ M). cbn [Python.split_exp].
    change (Ascii.eqb "e" "e" || Ascii.eqb "e" "E")%bool with true. cbv iota.
    rewrite append_empty.
    destruct (number_mantissa m M) as [v [k E]]. rewrite E.
    destruct (exponent_signed sg ex S H N) as [e F]. rewrite F.
    eexists. reflexivity.
Qed.

Lemma all_digits_head (s : string) :
  all_digits s = true -> s <> EmptyString ->
  exists c r, s = String c r /\ is_digit c = true.
Proof.
  intros H N. destruct s as [| c r]; [contradiction |].
  cbn [all_digits] in H. apply andb_prop in H. destruct H as [Hc _].
  exists c, r. split; [reflexivity | exact Hc].
Qed.

Lemma mantissa_head (m : string) :
  mantissa_text m -> exists c r, m = String c r /\ is_digit c = true.
Proof.
  intros [[H N] | [a [b [Ha [Na [Hb ->]]]]]].
  - apply all_digits_head; assumption.
  - destruct (all_digits_head a Ha Na) as [c [r [-> Hc]]].
    exists c. eexists. split; [reflexivity | exact Hc].
Qed.

Lemma float_text_head (s : string) :
  float_text s -> exists c r, s = String c r /\ is_digit c = true.
Proof.
  intros [M | [m [sg [ex [M [_ [_ [_ ->]]]]]]]].
  - apply mantissa_head, M.
  - destruct (mantissa_head m M) as [c [r [-> Hc]]].
    exists c. eexists. split; [reflexivity | exact Hc].
Qed.

Lemma mantissa_numeric (m : string) : mantissa_text m -> numeric m = true.
Proof.
  intros [[H N] | [a [b [Ha [Na [Hb ->]]]]]].
  - apply all_digits_numeric, H.
  - rewrite numeric_app. cbn [numeric].
    rewrite (all_digits_numeric a Ha), (all_digits_numeric b Hb). reflexivity.
Qed.

Lemma float_text_numeric (s : string) : float_text s -> numeric s = true.
Proof.
  intros [M | [m [sg [ex [M [S [H [_ ->]]]]]]]].
  - apply mantissa_numeric, M.
  - rewrite numeric_app. cbn [numeric].
    rewrite (mantissa_numeric m M), (all_digits_numeric ex H).
    destruct S as [-> | ->]; reflexivity.
Qed.

(** The text of a positive finite float is read by [float]. *)
Lemma float_of_text (s : string) :
  float_text s ->
  exists x, Python.float s = Ok x /\ Python.float (String "-" s) = Ok (SFopp x).
Proof.
  intros T. pose proof (float_text_numeric s T) as Nu.
  destruct (floatnumber_text s T) as [q Q].
  destruct (float_text_head s T) as [c [r [E Hc]]].
  destruct (digit_is c Hc) as [_ [L [_ [_ [_ [_ [Ei [En [Ep Em]]]]]]]]].
  assert (A : Python.absfloatvalue s = Some (Python.of_Q q)).
  { unfold Python.absfloatvalue. rewrite Q, E.
    cbn [Python.lower_string String.eqb]. rewrite L, Ei, En. reflexivity. }
  exists (Python.of_Q q). split.
  - unfold Python.float.
    rewrite (lstrip_ws_numeric s Nu), (rstrip_ws_numeric s Nu).
    assert (S : match s with
                | String "-" t' => (true, t')
                | String "+" t' => (false, t')
                | _ => (false, s)
                end = (false, s)).
    { rewrite E. clear - Hc.
      destruct c as [[] [] [] [] [] [] [] []]; try reflexivity;
        vm_compute in Hc; discriminate Hc. }
    rewrite S, A. reflexivity.
  - unfold Python.float.
    assert (Nu' : numeric (String "-" s) = true)
      by (cbn [numeric]; rewrite Nu; reflexivity).
    rewrite (lstrip_ws_numeric _ Nu'), (rstrip_ws_numeric _ Nu'), A.
    reflexivity.
Qed.

Lemma is_digit_zero : is_digit "0" = true.
Proof. vm_compute. reflexivity. Qed.

Lemma all_digits_zeros (k : nat) : all_digits (Python.zeros k) = true.
Proof.
  induction k as [| k IH]; [reflexivity |].
  cbn [Python.zeros all_digits]. rewrite is_digit_zero, IH. reflexivity.
Qed.

Lemma all_digits_substring (s : string) (n m : nat) :
  all_digits s = true -> all_digits (substring n m s) = true.
Proof.
  revert n m. induction s as [| c s IH]; intros n m H.
  - destruct n, m; reflexivity.
  - cbn [all_digits] in H. apply andb_prop in H. destruct H as [Hc Hs].
    destruct n as [| n].
    + destruct m as [| m]; [reflexivity |].
      cbn [substring all_digits]. rewrite Hc, (IH 0%nat m Hs). reflexivity.
    + cbn [substring]. apply IH, Hs.
Qed.

Lemma nonempty_length (s : string) : (1 <= String.length s)%nat -> s <> EmptyString.
Proof. destruct s; cbn [String.length]; [lia | discriminate]. Qed.

Lemma str_int_text (n : Z) : str_int n <> EmptyString.
Proof. apply nonempty_length, str_int_nonempty. Qed.

(** Every layout of [repr] is one that [float] reads. *)
Lemma format_short_text (ds : string) (decpt : Z) :
  all_digits ds = true -> ds <> EmptyString ->
  float_text (Python.format_short ds decpt).
Proof.
  intros H N. unfold Python.format_short.
  destruct ((-4 <? decpt) && (decpt <=? 16))%bool.
  - left. right. destruct (decpt <=? 0) eqn:D0.
    + exists "0"%string, (Python.zeros (Z.to_nat (- decpt)) ++ ds)%string.
      rewrite all_digits_app, all_digits_zeros, H.
      repeat split; try reflexivity; discriminate.
    + destruct (decpt <? Z.of_nat (String.length ds)) eqn:D1.
      * eexists _, _. split; [| split; [| split; [| reflexivity]]].
        -- apply all_digits_substring, H.
        -- apply Z.leb_gt in D0.
           destruct ds as [| c r]; [contradiction |].
           destruct (Z.to_nat decpt) as [| k] eqn:K; [lia |].
           cbn [substring]. discriminate.
        -- apply all_digits_substring, H.
      * exists (ds ++ Python.zeros (Z.to_nat (decpt - Z.of_nat (String.length ds))))%string,
          "0"%string.
        rewrite all_digits_app, all_digits_zeros, H.
        split; [reflexivity |]. split.
        { destruct ds; [contradiction | discriminate]. }
        split; [cbn [all_digits]; rewrite is_digit_zero; reflexivity |].
        rewrite string_app_assoc. reflexivity.
  - right.
    set (e := decpt - 1).
    exists (match ds with
            | String c EmptyString => ds
            | String c rest => String c ("." ++ rest)
            | EmptyString => ds
            end), (if e <? 0 then "-"%char else "+"%char),
      ((if (Z.abs e <? 10)%Z then "0" else "") ++ str_int (Z.abs e))%string.
    split; [| split; [| split; [| split]]].
    + destruct ds as [| c [| d r]]; [contradiction | |].
      * left. split; [exact H | discriminate].
      * right. exists (String c ""), (String d r).
        cbn [all_digits] in H. apply andb_prop in H. destruct H as [Hc Hr].
        split; [cbn [all_digits]; rewrite Hc; reflexivity |].
        split; [discriminate |]. split; [exact Hr | reflexivity].
    + destruct (e <? 0); [right | left]; reflexivity.
    + rewrite all_digits_app, str_int_all.
      destruct (Z.abs e <? 10); [| reflexivity].
      cbn [all_digits]. rewrite is_digit_zero. reflexivity.
    + destruct (Z.abs e <? 10).
      * discriminate.
      * apply str_int_text.
    + destruct (e <? 0); reflexivity.
Qed.

Lemma repr_finite_text (m : BinNums.positive) (e : Z) :
  float_text (Python.repr_finite m e).
Proof.
  unfold Python.repr_finite.
  destruct (Python.shortest _ _ _ _ _ _ _) as [N0 ex0].
  destruct (Python.strip_zeros _ _ _) as [N ex].
  apply format_short_text; [apply str_int_all | apply str_int_text].
Qed.

(** [float] reads every text that [repr] writes, also [nan] and the
    infinities, and none of them holds a percent sign. *)
Lemma repr_parses (x : spec_float) :
  free_of "%" (Python.repr x) = true /\ Python.repr x <> EmptyString /\
  exists y, Python.float (Python.repr x) = Ok y.
Proof.
  destruct x as [s | s | | s m e].
  - destruct s; (split; [reflexivity | split; [discriminate |]]);
      eexists; vm_compute; reflexivity.
  - destruct s; (split; [reflexivity | split; [discriminate |]]);
      eexists; vm_compute; reflexivity.
  - split; [reflexivity | split; [discriminate |]].
    eexists; vm_compute; reflexivity.
  - pose proof (repr_finite_text m e) as T.
    destruct (float_of_text _ T) as [y [P M]].
    destruct (float_text_head _ T) as [c [r [E _]]].
    pose proof (float_text_numeric _ T) as Nu.
    cbn [Python.repr]. destruct s; cbn [append].
    + split; [| split; [discriminate | exists (SFopp y); exact M]].
      cbn [free_of]. rewrite (numeric_free _ Nu). reflexivity.
    + split; [apply numeric_free, Nu |].
      split; [rewrite E; discriminate | exists y; exact P].
Qed.

(** [float(s.strip('%'))] on an entry of the estimator's dict. *)
Lemma consumed_entry (cov : dict string) (color : string) (x : spec_float) :
  getitem cov color = Ok (Python.repr x ++ "%")%string ->
  Binary.consumed_coverage cov color = Python.float (Python.repr x).
Proof.
  intros H. unfold Binary.consumed_coverage. rewrite H. cbn [bind].
  destruct (repr_parses x) as [F [N _]]. rewrite (strip_percent _ F N).
  reflexivity.
Qed.

(** ** Black *)

Section Black.

Import Float32 NumPy.

Let n (c : byte) : spec_float := div32 (of_u8 c) (of_Z 255).











Lemma round2_rounded (x : spec_float) :
  rounded_to_2_decimals x (NumPy.round2 x).
Proof.
  unfold rounded_to_2_decimals, NumPy.round2.
  destruct (mul32 x (of_Z 100)) as [s | s | | s m e] eqn:E.
  - destruct s; reflexivity.
  - destruct s; reflexivity.
  - reflexivity.
  - exists (rint (SF2Q (S754_finite s m e))). split; [| reflexivity].
    apply Qabs_Qle_condition. apply rint_error.
Qed.

End Black.


(** The entry on [sample], where the mean is 21.568...: the float32
    nearest to 21.57, written as the Python float it is; and on a single
    gray pixel of level 128 and of level 64. *)
Example black_entries :
  getitem (Binary.cmyk_coverage_of NumPy.sum32_seq sample) "Black (K)" =
    Ok "21.56999969482422%"%string /\
  getitem (Binary.cmyk_coverage_of NumPy.sum32_seq [[(x80, x80, x80)%byte]])
    "Black (K)" = Ok "49.79999923706055%"%string /\
  getitem (Binary.cmyk_coverage_of NumPy.sum32_seq [[(x40, x40, x40)%byte]])
    "Black (K)" = Ok "74.9000015258789%"%string.
Proof. repeat split; vm_compute; reflexivity. Qed.

(** ** The calculator on floats *)

Section CalculatorFloat.

Variable builtin_sum : list spec_float -> spec_float.
Variable cov : dict string.
Variable x : InkChannel -> spec_float.
Variables print_width print_height : spec_float.
Variables usage price : InkChannel -> spec_float.
Variables paper mk : spec_float.

Hypothesis consumed :
  forall c, Binary.consumed_coverage cov (channel_name c) = Ok (x c).

Let g : Binary.globals :=
  {| Binary.ink_prices := dict_of price;
     Binary.paper_cost := paper;
     Binary.markup := mk |}.

Lemma ink_term_float (c : InkChannel) :
  Binary.ink_term g (SpecFloat64.printAreaM2 print_width print_height) cov
    (dict_of usage) (channel_name c) =
  Ok (SpecFloat64.channelInkCost x print_width print_height usage price c).
Proof. unfold Binary.ink_term. rewrite consumed. destruct c; reflexivity. Qed.

(** With the coverages read as [x], [calculate_print_cost] returns the
    amounts of the specification's formulas, each rounded when it is
    formatted, and the paper cost as it is. *)
Lemma calculate_print_cost_float :
  Binary.calculate_print_cost builtin_sum g print_width print_height cov
    (dict_of usage) =
  Ok [ ("Ink Cost",
        peso ++ Python.repr (Python.round2
          (SpecFloat64.totalInkCost builtin_sum x print_width print_height
             usage price)));
       ("Paper Cost", peso ++ Python.repr paper);
       ("Total Cost",
        peso ++ Python.repr (Python.round2
          (SpecFloat64.totalCost builtin_sum x print_width print_height
             usage price paper)));
       ("Final Price (with Markup)",
        peso ++ Python.repr (Python.round2
          (SpecFloat64.finalPrice builtin_sum x print_width print_height
             usage price paper mk))) ]%string.
Proof.
  unfold Binary.calculate_print_cost.
  change (keys (Binary.ink_prices g)) with (map channel_name channels).
  fold (SpecFloat64.printAreaM2 print_width print_height).
  cbn [map channels Binary.generated].
  rewrite !ink_term_float. reflexivity.
Qed.

End CalculatorFloat.

(** ** Rounding between estimator and calculator *)

Lemma coverage_entry (np_sum : list spec_float -> spec_float) (img : image)
    (c : InkChannel) :
  getitem (Binary.cmyk_coverage_of np_sum img) (channel_name c) =
  Ok (NumPy.format (Binary.rounded_percent np_sum img c) ++ "%")%string.
Proof. destruct c; reflexivity. Qed.


Lemma pow2Q_pos (e : Z) : (0 < pow2Q e)%Q.
Proof.
  unfold pow2Q. destruct (0 <=? e) eqn:E.
  - apply Z.leb_le in E. unfold Qlt. cbn [Qnum Qden inject_Z].
    pose proof (Z.pow_pos_nonneg 2 e). lia.
  - reflexivity.
Qed.

(** A percentage that is nan, zero or, times 100, at most 10000 is
    reported as a percentage of 2 decimals. *)
Lemma round2_two_decimals (x : spec_float) :
  NumPy.mul32 x (Float32.of_Z 100) = S754_nan \/
  NumPy.mul32 x (Float32.of_Z 100) = S754_zero false \/
  (exists m e, NumPy.mul32 x (Float32.of_Z 100) = S754_finite false m e /\
               (SF2Q (S754_finite false m e) <= 10000)%Q) ->
  two_decimals (NumPy.round2 x).
Proof.
  unfold NumPy.round2. intros [E | [E | [m [e [E U]]]]]; rewrite E.
  - left. reflexivity.
  - right. exists 0. split; [lia | reflexivity].
  - right. exists (rint (SF2Q (S754_finite false m e))). split; [| reflexivity].
    split.
    + change 0 with (rint 0). apply rint_monotone.
      cbn [SF2Q]. apply Qmult_le_0_compat; [| apply Qlt_le_weak, pow2Q_pos].
      unfold Qle. cbn [Qnum Qden inject_Z]. lia.
    + change 10000 with (rint 10000). apply rint_monotone, U.
Qed.

(** The text of each count of hundredths from 0.00 to 100.00, as float32,
    is read back as the same value. *)
Lemma hundredths_read_back :
  forallb
    (fun k =>
       let w :=
         NumPy.widen (Float32.div32 (Float32.of_Z k) (Float32.of_Z 100)) in
       match Python.float (Python.repr w) with
       | Ok y => sf_eqb y w
       | Raise _ => false
       end)
    (map Z.of_nat (seq 0 (Z.to_nat 10001))) = true.
Proof. vm_compute. reflexivity. Qed.

Lemma two_decimals_read_back (v : spec_float) :
  two_decimals v -> Python.float (NumPy.format v) = Ok (NumPy.widen v).
Proof.
  intros [-> | [k [B ->]]]; [vm_compute; reflexivity |].
  pose proof hundredths_read_back as H. rewrite forallb_forall in H.
  assert (I : In k (map Z.of_nat (seq 0 (Z.to_nat 10001)))).
  { apply in_map_iff. exists (Z.to_nat k). split; [lia |]. apply in_seq. lia. }
  specialize (H k I). cbv zeta in H. unfold NumPy.format.
  destruct (Python.float _) as [y | e]; [| discriminate H].
  apply sf_eqb_eq in H. congruence.
Qed.

(** C3, as the specification has it: the calculator would compute with
    the full-precision means.  It does not on [sample]: the black mean is
    21.568627... percent, and the calculator computes with
    21.56999969482422, the float32 nearest to 21.57 that the estimator
    wrote into its string. *)
Lemma full_precision_not_consumed :
  ~ (forall c y,
       Binary.consumed_coverage (Binary.cmyk_coverage_of NumPy.sum32_seq sample)
         (channel_name c) = Ok y ->
       y = NumPy.widen (Binary.mean_percent NumPy.sum32_seq sample c)).
Proof.
  intros H. pose proof (H Black) as K. vm_compute in K.
  specialize (K _ eq_refl). discriminate K.
Qed.

(** C3, amended.  For every image whose coverages are reported as
    percentages of 2 decimals: the estimator rounds each mean to 2
    decimals and writes it into a string; the calculator reads that
    string back and computes with the rounded value, not with the mean;
    from these values it computes the three amounts without further
    rounding, and each amount is rounded once more when
    [calculate_print_cost] formats it. *)
Theorem coverage_rounded_then_reparsed
    (np_sum builtin_sum : list spec_float -> spec_float) (img : image)
    (print_width print_height : spec_float)
    (usage price : InkChannel -> spec_float) (paper mk : spec_float) :
  (forall c, two_decimals (Binary.rounded_percent np_sum img c)) ->
  (forall c,
     rounded_to_2_decimals (Binary.mean_percent np_sum img c)
       (Binary.rounded_percent np_sum img c) /\
     getitem (Binary.cmyk_coverage_of np_sum img) (channel_name c) =
       Ok (NumPy.format (Binary.rounded_percent np_sum img c) ++ "%")%string /\
     Binary.consumed_coverage (Binary.cmyk_coverage_of np_sum img)
       (channel_name c) = Ok (NumPy.widen (Binary.rounded_percent np_sum img c))) /\
  Binary.calculate_print_cost builtin_sum
    {| Binary.ink_prices := dict_of price;
       Binary.paper_cost := paper;
       Binary.markup := mk |}
    print_width print_height (Binary.cmyk_coverage_of np_sum img) (dict_of usage) =
  Ok [ ("Ink Cost",
        peso ++ Python.repr (Python.round2
          (SpecFloat64.totalInkCost builtin_sum
             (fun c => NumPy.widen (Binary.rounded_percent np_sum img c))
             print_width print_height usage price)));
       ("Paper Cost", peso ++ Python.repr paper);
       ("Total Cost",
        peso ++ Python.repr (Python.round2
          (SpecFloat64.totalCost builtin_sum
             (fun c => NumPy.widen (Binary.rounded_percent np_sum img c))
             print_width print_height usage price paper)));
       ("Final Price (with Markup)",
        peso ++ Python.repr (Python.round2
          (SpecFloat64.finalPrice builtin_sum
             (fun c => NumPy.widen (Binary.rounded_percent np_sum img c))
             print_width print_height usage price paper mk))) ]%string.
Proof.
  intros T.
  assert (C : forall c,
    Binary.consumed_coverage (Binary.cmyk_coverage_of np_sum img)
      (channel_name c) = Ok (NumPy.widen (Binary.rounded_percent np_sum img c))).
  { intros c. rewrite (consumed_entry _ _ _ (coverage_entry np_sum img c)).
    apply (two_decimals_read_back _ (T c)). }
  split.
  - intros c. split; [apply round2_rounded |].
    split; [apply coverage_entry | apply C].
  - apply calculate_print_cost_float, C.
Qed.

(** The amended claim on [sample], on an A4 sheet with the Epson rates:
    the four coverages are reported as 50.0, 25.0, 50.0 and 21.57. *)
Lemma coverage_rounded_then_reparsed_sample :
  (forall c, two_decimals (Binary.rounded_percent NumPy.sum32_seq sample c)) /\
  (forall c,
     rounded_to_2_decimals (Binary.mean_percent NumPy.sum32_seq sample c)
       (Binary.rounded_percent NumPy.sum32_seq sample c) /\
     getitem (Binary.cmyk_coverage_of NumPy.sum32_seq sample) (channel_name c) =
       Ok (NumPy.format (Binary.rounded_percent NumPy.sum32_seq sample c) ++ "%")%string /\
     Binary.consumed_coverage (Binary.cmyk_coverage_of NumPy.sum32_seq sample)
       (channel_name c) =
       Ok (NumPy.widen (Binary.rounded_percent NumPy.sum32_seq sample c))) /\
  Binary.calculate_print_cost Binary.sum_left
    {| Binary.ink_prices := dict_of (fun _ => Python.of_Q 1.0);
       Binary.paper_cost := Python.of_Q 2.8;
       Binary.markup := Python.of_Q 0.3 |}
    (Python.of_Z 210) (Python.of_Z 297)
    (Binary.cmyk_coverage_of NumPy.sum32_seq sample)
    (dict_of (fun _ => Python.of_Q 55.29)) =
  Ok [ ("Ink Cost",
        peso ++ Python.repr (Python.round2
          (SpecFloat64.totalInkCost Binary.sum_left
             (fun c => NumPy.widen (Binary.rounded_percent NumPy.sum32_seq sample c))
             (Python.of_Z 210) (Python.of_Z 297)
             (fun _ => Python.of_Q 55.29) (fun _ => Python.of_Q 1.0))));
       ("Paper Cost", peso ++ Python.repr (Python.of_Q 2.8));
       ("Total Cost",
        peso ++ Python.repr (Python.round2
          (SpecFloat64.totalCost Binary.sum_left
             (fun c => NumPy.widen (Binary.rounded_percent NumPy.sum32_seq sample c))
             (Python.of_Z 210) (Python.of_Z 297)
             (fun _ => Python.of_Q 55.29) (fun _ => Python.of_Q 1.0)
             (Python.of_Q 2.8))));
       ("Final Price (with Markup)",
        peso ++ Python.repr (Python.round2
          (SpecFloat64.finalPrice Binary.sum_left
             (fun c => NumPy.widen (Binary.rounded_percent NumPy.sum32_seq sample c))
             (Python.of_Z 210) (Python.of_Z 297)
             (fun _ => Python.of_Q 55.29) (fun _ => Python.of_Q 1.0)
             (Python.of_Q 2.8) (Python.of_Q 0.3)))) ]%string.
Proof.
  assert (T : forall c,
            two_decimals (Binary.rounded_percent NumPy.sum32_seq sample c)).
  { intros c.
    destruct c; right;
      [exists 5000 | exists 2500 | exists 5000 | exists 2157];
      (split; [lia | vm_compute; reflexivity]). }
  split; [exact T |].
  apply (coverage_rounded_then_reparsed NumPy.sum32_seq Binary.sum_left sample
           (Python.of_Z 210) (Python.of_Z 297)
           (fun _ => Python.of_Q 55.29) (fun _ => Python.of_Q 1.0)
           (Python.of_Q 2.8) (Python.of_Q 0.3) T).
Defined.

(** What the two functions exchange and return there. *)
Example sample_exchange :
  Binary.cmyk_coverage_of NumPy.sum32_seq sample =
    [ ("Cyan", "50.0%"); ("Magenta", "25.0%"); ("Yellow", "50.0%");
      ("Black (K)", "21.56999969482422%") ]%string /\
  Binary.consumed_coverage (Binary.cmyk_coverage_of NumPy.sum32_seq sample)
    "Black (K)" = Ok (S754_finite false 6071415161749504 (-48)) /\
  NumPy.widen (Binary.mean_percent NumPy.sum32_seq sample Black) =
    S754_finite false 6071028614692864 (-48) /\
  Binary.calculate_print_cost Binary.sum_left
    {| Binary.ink_prices := dict_of (fun _ => Python.of_Q 1.0);
       Binary.paper_cost := Python.of_Q 2.8;
       Binary.markup := Python.of_Q 0.3 |}
    (Python.of_Z 210) (Python.of_Z 297)
    (Binary.cmyk_coverage_of NumPy.sum32_seq sample)
    (dict_of (fun _ => Python.of_Q 55.29)) =
  Ok [ ("Ink Cost", peso ++ "5.05");
       ("Paper Cost", peso ++ "2.8");
       ("Total Cost", peso ++ "7.85");
       ("Final Price (with Markup)", peso ++ "10.21") ]%string.
Proof. repeat split; vm_compute; reflexivity. Qed.

(** ** The upload block: all or nothing *)



Section Upload.

Variable pil_open : list byte -> bool.
Variable imdecode : list byte -> option image.
Variables np_sum builtin_sum : list spec_float -> spec_float.
Variable fs : files.
Variable temp_filename : string.
Variables (price : InkChannel -> spec_float) (paper mk : spec_float).
Variables (PRINT_WIDTH PRINT_HEIGHT : spec_float).
Variables (cfg : Binary.printer) (usage : InkChannel -> spec_float).
Variable bytes : list byte.

Hypothesis cfg_usage : Binary.INK_USAGE_PER_M2 cfg = dict_of usage.

Let g : Binary.globals :=
  {| Binary.ink_prices := dict_of price;
     Binary.paper_cost := paper;
     Binary.markup := mk |}.





End Upload.



(** What that run shows, and the runs on a file that only Pillow
    identifies and on one that Pillow does not identify. *)
Example demo_run :
  Binary.script demo_pil demo_decode NumPy.sum32_seq Binary.sum_left []
    "/tmp/upload.png" demo_inputs =
  ([ st_image "/tmp/upload.png";
     st_subheader "CMYK Ink Coverage";
     st_write "**Cyan:** 50.0%";
     st_write "**Magenta:** 25.0%";
     st_write "**Yellow:** 50.0%";
     st_write "**Black (K):** 21.56999969482422%";
     st_subheader "Cost Calculation";
     st_write ("**Ink Cost:** " ++ peso ++ "5.05");
     st_write ("**Paper Cost:** " ++ peso ++ "2.8");
     st_write ("**Total Cost:** " ++ peso ++ "7.85");
     st_write ("**Final Price (with Markup):** " ++ peso ++ "10.21") ]%string,
   Binary.completed) /\
  Binary.script demo_pil (fun _ => None) NumPy.sum32_seq Binary.sum_left []
    "/tmp/upload.png" demo_inputs =
  ([ st_image "/tmp/upload.png";
     st_error "Error processing the image. Please try another file." ],
   Binary.completed) /\
  Binary.script (fun _ => false) (fun _ => None) NumPy.sum32_seq
    Binary.sum_left [] "/tmp/upload.png" demo_inputs =
  ([], Binary.unidentified_image).
Proof. repeat split; vm_compute; reflexivity. Qed.
